(** * Biofeedback lab: HRV pipeline, integral controller and session summary

    A shallow embedding of the core of the biofeedback repository:

    - [code/controller.py]            (module [Controller])
    - [code/polar_hrv.py]             (module [Hrv])
    - [code/polar_run.py]             (module [PolarRun])
    - [code/session_stress_csv.py]    (module [SessionStressCsv])

    The modules [HrvSpec] and [SummarySpec] word the same notions the way
    the specification does; the proofs relate the two.

    Python [float] values are idealised as real numbers ([R]): every
    arithmetic operation of the source is read as the exact operation on
    reals, so rounding, infinities and NaN are outside the model.  Python
    [int] values are [Z], a [bytearray] is a list of [Byte.byte], Python
    lists are Rocq lists, [None] is [None], and a raised exception is the
    [Raise] constructor of [Py.result].  Calls to [print] are omitted. *)

From Stdlib Require Import Strings.String Strings.Byte.
From Stdlib Require Import Reals Lra Lia List ZArith Bool Arith.
Import ListNotations.

Open Scope R_scope.

(** ** Python builtins used by the sources *)

Module Py.

(** Exceptions the modelled code can raise. *)
Inductive exn : Type :=
| ValueError (msg : string)
| ZeroDivisionError
| StatisticsError
| QueueFull.

Inductive result (A : Type) : Type :=
| Ok (a : A)
| Raise (e : exn).
Arguments Ok {A} a.
Arguments Raise {A} e.

Definition bind {A B : Type} (m : result A) (k : A -> result B) : result B :=
  match m with
  | Ok a => k a
  | Raise e => Raise e
  end.

(** [max(a, b)]: the first argument is kept unless a later one is
    strictly greater. *)
Definition max2 (a b : R) : R := if Rlt_dec a b then b else a.

(** [min(a, b)]: the first argument is kept unless a later one is
    strictly smaller. *)
Definition min2 (a b : R) : R := if Rlt_dec b a then b else a.

(** [sum(xs)] over floats, accumulated from the left starting at 0. *)
Definition sum (xs : list R) : R := fold_left Rplus xs 0.

(** [len(xs)] as a float, as it is used as a divisor. *)
Definition len (xs : list R) : R := INR (length xs).

(** [a / b] on floats: raises on a zero divisor. *)
Definition div (a b : R) : result R :=
  if Req_dec_T b 0 then Raise ZeroDivisionError else Ok (a / b).

(** [a or b] on floats: [a] when it is truthy (non-zero), else [b]. *)
Definition or_else (a b : R) : R := if Req_dec_T a 0 then b else a.

(** [math.sqrt(x)]: raises on a negative argument. *)
Definition sqrt (x : R) : result R :=
  if Rlt_dec x 0 then Raise (ValueError "math domain error"%string) else Ok (R_sqrt.sqrt x).

(** Float comparisons as booleans. *)
Definition leb (a b : R) : bool := if Rle_dec a b then true else false.
Definition geb (a b : R) : bool := if Rge_dec a b then true else false.

(** [xs[start:]] for an integer [start] of either sign. *)
Definition slice_from {A : Type} (xs : list A) (start : Z) : list A :=
  if (start <? 0)%Z
  then skipn (Z.to_nat (Z.max 0 (Z.of_nat (length xs) + start))) xs
  else skipn (Z.to_nat start) xs.

(** [int.from_bytes(bs, byteorder="little")]. *)
Fixpoint from_bytes_little (bs : list byte) : Z :=
  match bs with
  | [] => 0
  | b :: bs' => Z.of_N (Byte.to_N b) + 256 * from_bytes_little bs'
  end.

(** [statistics.mean(xs)]: the arithmetic mean; raises on no data. *)
Definition mean (xs : list R) : result R :=
  match xs with
  | [] => Raise StatisticsError
  | _ => Ok (sum xs / len xs)
  end.

(** [statistics.pstdev(xs)]: the population standard deviation, the
    square root of the mean squared deviation from the mean; raises on
    no data. *)
Definition pstdev (xs : list R) : result R :=
  match xs with
  | [] => Raise StatisticsError
  | _ =>
      let mu := sum xs / len xs in
      Ok (R_sqrt.sqrt (sum (map (fun x => (x - mu) * (x - mu)) xs) / len xs))
  end.

(** [asyncio.Queue(maxsize)]: a FIFO; [maxsize <= 0] means unbounded. *)
Record Queue : Type := mkQueue { maxsize : Z; items : list R }.

(** [asyncio.Queue()]: the default [maxsize] is 0. *)
Definition new_queue : Queue := mkQueue 0 [].

Definition full (q : Queue) : bool :=
  if (maxsize q <=? 0)%Z then false
  else (maxsize q <=? Z.of_nat (length (items q)))%Z.

Definition put_nowait (q : Queue) (x : R) : result Queue :=
  if full q then Raise QueueFull
  else Ok (mkQueue (maxsize q) (items q ++ [x])).

End Py.

Notation "x <- m ;; k" := (Py.bind m (fun x => k))
  (at level 61, m at next level, right associativity).

(** ** controller.py *)

Module Controller.

Record AudioParams : Type := mkAudioParams
  { tempo : R; pitch : R; volume : R }.

(** [AudioParams()] with the dataclass defaults. *)
Definition default_params : AudioParams := mkAudioParams 1.0 (-2.0) 60.0.

Definition HRV_SETPOINT : R := 0.0.

Definition TEMPO_MIN : R := 0.85.
Definition TEMPO_MAX : R := 1.15.
Definition PITCH_MIN : R := -6.0.
Definition PITCH_MAX : R := 0.0.
Definition VOLUME_MIN : R := 52.0.
Definition VOLUME_MAX : R := 68.0.

Definition HRV_KI_TEMPO : R := 0.010.
Definition HRV_KI_PITCH : R := -0.030.
Definition HRV_KI_VOLUME : R := -0.400.

Definition DT : R := 1.0.

Definition relax_alpha : R := 0.02.
Definition FAA_KP_PITCH : R := 0.15.
Definition FAA_KP_VOLUME : R := 1.0.

Definition update_audio_params (params : AudioParams) (hrv_z faa_z : option R)
    (is_baseline is_post_window : bool) : AudioParams :=
  match is_baseline, hrv_z with
  | true, _ | _, None =>
      mkAudioParams
        (tempo params + relax_alpha * (1.0 - tempo params))
        (pitch params + relax_alpha * (-2.0 - pitch params))
        (volume params + relax_alpha * (60.0 - volume params))
  | false, Some z =>
      let hrv_error := HRV_SETPOINT - z in
      let tempo0 := tempo params + HRV_KI_TEMPO * hrv_error * DT in
      let pitch0 := pitch params + HRV_KI_PITCH * hrv_error * DT in
      let volume0 := volume params + HRV_KI_VOLUME * hrv_error * DT in
      let pitch1 :=
        match faa_z with
        | Some f => pitch0 + FAA_KP_PITCH * f
        | None => pitch0
        end in
      let volume1 :=
        match faa_z with
        | Some f => volume0 + FAA_KP_VOLUME * f
        | None => volume0
        end in
      mkAudioParams
        (Py.max2 TEMPO_MIN (Py.min2 TEMPO_MAX tempo0))
        (Py.max2 PITCH_MIN (Py.min2 PITCH_MAX pitch1))
        (Py.max2 VOLUME_MIN (Py.min2 VOLUME_MAX volume1))
  end.

(** One controller input: [(hrv_z, faa_z, is_baseline, is_post_window)]. *)
Record Tick : Type := mkTick
  { tick_hrv_z : option R;
    tick_faa_z : option R;
    tick_is_baseline : bool;
    tick_is_post_window : bool }.

Definition step (p : AudioParams) (t : Tick) : AudioParams :=
  update_audio_params p (tick_hrv_z t) (tick_faa_z t)
    (tick_is_baseline t) (tick_is_post_window t).

(** The caller threads the state: the outputs of a finite input
    sequence, one per tick, in order. *)
Fixpoint outputs (p : AudioParams) (ts : list Tick) : list AudioParams :=
  match ts with
  | [] => []
  | t :: ts' => let q := step p t in q :: outputs q ts'
  end.

(** The state after a finite input sequence. *)
Definition run (p : AudioParams) (ts : list Tick) : AudioParams :=
  fold_left step ts p.

(** Every field within its configured range. *)
Definition in_range (p : AudioParams) : Prop :=
  TEMPO_MIN <= tempo p <= TEMPO_MAX /\
  PITCH_MIN <= pitch p <= PITCH_MAX /\
  VOLUME_MIN <= volume p <= VOLUME_MAX.

(** A tick that takes the relaxation branch. *)
Definition relaxes (t : Tick) : Prop :=
  tick_is_baseline t = true \/ tick_hrv_z t = None.

(** [x'] is no farther from [n] than [x] and on the same side of it. *)
Definition toward (n x x' : R) : Prop :=
  Rabs (x' - n) <= Rabs (x - n) /\
  (n <= x -> n <= x') /\ (x <= n -> x' <= n).

Definition toward_neutral (p p' : AudioParams) : Prop :=
  toward 1.0 (tempo p) (tempo p') /\
  toward (-2.0) (pitch p) (pitch p') /\
  toward 60.0 (volume p) (volume p').

(** [x'] is [x] moved toward [n]: on the same side of [n], no farther from
    it, and strictly nearer unless [x] is at [n] already. *)
Definition moves_toward (n x x' : R) : Prop :=
  toward n x x' /\ (x <> n -> Rabs (x' - n) < Rabs (x - n)).

Definition moves_toward_neutral (p p' : AudioParams) : Prop :=
  moves_toward 1.0 (tempo p) (tempo p') /\
  moves_toward (-2.0) (pitch p) (pitch p') /\
  moves_toward 60.0 (volume p) (volume p').

(** The tick of the saturation example: [z = -1.0], no FAA, not baseline. *)
Definition aroused_tick : Tick := mkTick (Some (-1.0)) None false false.

Definition aroused (p : AudioParams) (n : nat) : AudioParams :=
  run p (repeat aroused_tick n).

End Controller.


(** ** polar_hrv.py *)

Module Hrv.

Definition compute_rmssd (rr_ms_window : list R) : Py.result (option R) :=
  if (length rr_ms_window <? 3)%nat then Py.Ok None
  else
    let diffs :=
      map (fun i => nth i rr_ms_window 0 - nth (i - 1) rr_ms_window 0)
          (seq 1 (length rr_ms_window - 1)) in
    match diffs with
    | [] => Py.Ok None
    | _ =>
        mean_sq <- Py.div (Py.sum (map (fun d => d * d) diffs)) (Py.len diffs) ;;
        rmssd_ms <- Py.sqrt mean_sq ;;
        r <- Py.div rmssd_ms 1000.0 ;;
        Py.Ok (Some r)
    end.

(** The [while idx + 1 < len(data)] loop of the handler, run on the
    bytes from [idx] on: two bytes are consumed per turn while at least
    two are left. *)
Fixpoint rr_loop (rest : list byte) : list R :=
  match rest with
  | lo :: hi :: rest' =>
      let rr_raw := Py.from_bytes_little [lo; hi] in
      let rr_ms := (IZR rr_raw / 1024.0) * 1000.0 in
      rr_ms :: rr_loop rest'
  | _ => []
  end.

(** The arguments of [rmssd_z_stream] and the start time it records. *)
Record Config : Type := mkConfig
  { baseline_duration_s : R;
    rr_window_size : Z;
    baseline_start : R }.

(** The variables the handler closes over. *)
Record State : Type := mkState
  { rr_ms_window : list R;
    baseline_rmssds : list R;
    baseline_done : bool;
    base_mean : R;
    base_std : R;
    queue : Py.Queue }.

(** The state [rmssd_z_stream] sets up before it subscribes. *)
Definition init : State := mkState [] [] false 0.0 1.0 Py.new_queue.

Definition byte_val (b : byte) : Z := Z.of_N (Byte.to_N b).

(** [bool(flags & mask)]. *)
Definition flag_set (flags mask : Z) : bool := negb (Z.land flags mask =? 0)%Z.

(** Keep the most recent [rr_window_size] intervals: the slice
    [rr_ms_window[-rr_window_size:]], taken when the window is longer. *)
Definition keep_recent (cfg : Config) (w0 : list R) : list R :=
  if (rr_window_size cfg <? Z.of_nat (length w0))%Z
  then Py.slice_from w0 (- rr_window_size cfg)
  else w0.

(** [hrm_notification_handler(_sender, data)]; [now] is the reading of
    [time.time()] the call would take. *)
Definition hrm_notification_handler (cfg : Config) (st : State)
    (data : list byte) (now : R) : Py.result State :=
  if (length data <? 3)%nat then Py.Ok st
  else
    let flags := byte_val (nth 0 data x00) in
    let rr_present := flag_set flags 16 in
    if negb rr_present then Py.Ok st
    else
      let hr_is_uint16 := flag_set flags 1 in
      let idx := if hr_is_uint16 then 3%nat else 2%nat in
      let rr_values_ms := rr_loop (skipn idx data) in
      match rr_values_ms with
      | [] => Py.Ok st
      | _ =>
          let w := keep_recent cfg (rr_ms_window st ++ rr_values_ms) in
          let st1 := mkState w (baseline_rmssds st) (baseline_done st)
                       (base_mean st) (base_std st) (queue st) in
          r <- compute_rmssd w ;;
          match r with
          | None => Py.Ok st1
          | Some rmssd =>
              let elapsed := now - baseline_start cfg in
              if negb (baseline_done st) then
                let bl := baseline_rmssds st ++ [rmssd] in
                if Py.geb elapsed (baseline_duration_s cfg)
                   && (3 <=? length bl)%nat
                then
                  m <- Py.mean bl ;;
                  s <- Py.pstdev bl ;;
                  Py.Ok (mkState w bl true m (Py.or_else s 0.01) (queue st))
                else
                  Py.Ok (mkState w bl false (base_mean st) (base_std st) (queue st))
              else
                z <- Py.div (rmssd - base_mean st) (base_std st) ;;
                match Py.put_nowait (queue st) z with
                | Py.Ok q =>
                    Py.Ok (mkState w (baseline_rmssds st) (baseline_done st)
                             (base_mean st) (base_std st) q)
                | Py.Raise Py.QueueFull => Py.Ok st1
                | Py.Raise e => Py.Raise e
                end
          end
      end.

(** One delivered notification: the frame and the clock reading. *)
Definition Event : Type := (list byte * R)%type.

(** The handler run over a finite sequence of notifications. *)
Fixpoint deliver (cfg : Config) (st : State) (evs : list Event) : Py.result State :=
  match evs with
  | [] => Py.Ok st
  | (data, now) :: evs' =>
      st' <- hrm_notification_handler cfg st data now ;;
      deliver cfg st' evs'
  end.

(** States the handler can be in: reached from [init] without a raise. *)
Definition reachable (cfg : Config) (st : State) : Prop :=
  exists evs, deliver cfg init evs = Py.Ok st.

End Hrv.

(** ** The HRV pipeline as the specification words it *)

Module HrvSpec.

(** The arithmetic mean. *)
Definition arith_mean (xs : list R) : R :=
  fold_right Rplus 0 xs / INR (length xs).

(** Successive differences, in window order. *)
Fixpoint successive_diffs (w : list R) : list R :=
  match w with
  | x :: (y :: _) as w' => (y - x) :: successive_diffs w'
  | _ => []
  end.

(** Root mean square of the successive differences. *)
Definition rmssd (w : list R) : R :=
  sqrt (arith_mean (map (fun d => d * d) (successive_diffs w))).

(** Population standard deviation. *)
Definition population_std (xs : list R) : R :=
  let mu := arith_mean xs in
  sqrt (arith_mean (map (fun x => (x - mu) * (x - mu)) xs)).

(** The floor put under a zero baseline deviation. *)
Definition std_floor : R := 0.01.

(** A little-endian unsigned 16-bit value from its two bytes. *)
Definition le_uint16 (lo hi : byte) : Z :=
  (Z.of_N (Byte.to_N lo) + 256 * Z.of_N (Byte.to_N hi))%Z.

(** The flags byte of a frame, as an integer. *)
Definition flags_of (data : list byte) : Z := Z.of_N (Byte.to_N (nth 0 data x00)).

(** Where the intervals start: byte 3 when the HR-is-uint16 bit
    ([flags & 0x01]) is set, byte 2 otherwise. *)
Definition interval_offset (data : list byte) : nat :=
  if (Z.land (flags_of data) 1 =? 0)%Z then 2%nat else 3%nat.

(** How many whole intervals the frame holds. *)
Definition interval_count (data : list byte) : nat :=
  ((length data - interval_offset data) / 2)%nat.

(** The [k]-th interval of the frame, in seconds: a 16-bit count of
    1/1024 s. *)
Definition interval_seconds (data : list byte) (k : nat) : R :=
  let off := interval_offset data in
  IZR (le_uint16 (nth (off + 2 * k) data x00) (nth (off + 2 * k + 1) data x00))
  / 1024.

(** The intervals of the frame, in milliseconds, in frame order. *)
Definition intervals_ms (data : list byte) : list R :=
  map (fun k => interval_seconds data k * 1000) (seq 0 (interval_count data)).

(** The interval-presence bit ([flags & 0x10]). *)
Definition intervals_present (data : list byte) : bool :=
  negb (Z.land (flags_of data) 16 =? 0)%Z.

(** The deviation in use: the population deviation, floored when zero. *)
Definition floored_std (xs : list R) : R :=
  if Req_dec_T (population_std xs) 0 then std_floor else population_std xs.

(** *** What one notification does

    The calibrator and streamer as a transition system: what the arrival
    of frame [data] at clock reading [now] does in state [st]. *)

Section Outcome.

Variables (cfg : Hrv.Config) (st : Hrv.State) (data : list byte) (now : R).

(** The frame is long enough, announces intervals and holds at least one. *)
Definition accepted : Prop :=
  (3 <= length data)%nat /\ intervals_present data = true /\ intervals_ms data <> [].

(** The window after the frame's intervals are appended. *)
Definition new_window : list R :=
  Hrv.keep_recent cfg (Hrv.rr_ms_window st ++ intervals_ms data).

(** The RMSSD sample of the new window, in seconds. *)
Definition new_sample : R := rmssd new_window / 1000.

Definition elapsed : R := now - Hrv.baseline_start cfg.

(** The samples collected so far, this one included. *)
Definition collected : list R := Hrv.baseline_rmssds st ++ [new_sample].

Definition closing : Prop :=
  elapsed >= Hrv.baseline_duration_s cfg /\ (3 <= length collected)%nat.

Definition new_z : R := (new_sample - Hrv.base_mean st) / Hrv.base_std st.

Inductive outcome : Py.result Hrv.State -> Prop :=
| ignored :
    ~ accepted ->
    outcome (Py.Ok st)
| no_sample :
    accepted -> (length new_window < 3)%nat ->
    outcome (Py.Ok (Hrv.mkState new_window (Hrv.baseline_rmssds st)
                      (Hrv.baseline_done st) (Hrv.base_mean st) (Hrv.base_std st)
                      (Hrv.queue st)))
| collect :
    accepted -> (3 <= length new_window)%nat ->
    Hrv.baseline_done st = false -> ~ closing ->
    outcome (Py.Ok (Hrv.mkState new_window collected false
                      (Hrv.base_mean st) (Hrv.base_std st) (Hrv.queue st)))
| close :
    accepted -> (3 <= length new_window)%nat ->
    Hrv.baseline_done st = false -> closing ->
    outcome (Py.Ok (Hrv.mkState new_window collected true
                      (arith_mean collected) (floored_std collected) (Hrv.queue st)))
| emit :
    accepted -> (3 <= length new_window)%nat ->
    Hrv.baseline_done st = true -> Hrv.base_std st <> 0 ->
    Py.full (Hrv.queue st) = false ->
    outcome (Py.Ok (Hrv.mkState new_window (Hrv.baseline_rmssds st) true
                      (Hrv.base_mean st) (Hrv.base_std st)
                      (Py.mkQueue (Py.maxsize (Hrv.queue st))
                         (Py.items (Hrv.queue st) ++ [new_z]))))
| drop :
    accepted -> (3 <= length new_window)%nat ->
    Hrv.baseline_done st = true -> Hrv.base_std st <> 0 ->
    Py.full (Hrv.queue st) = true ->
    outcome (Py.Ok (Hrv.mkState new_window (Hrv.baseline_rmssds st) true
                      (Hrv.base_mean st) (Hrv.base_std st) (Hrv.queue st)))
| zero_division :
    accepted -> (3 <= length new_window)%nat ->
    Hrv.baseline_done st = true -> Hrv.base_std st = 0 ->
    outcome (Py.Raise Py.ZeroDivisionError).

End Outcome.

(** What the stream maintains: the queue stays the unbounded one it was
    created as, the deviation in use is never zero, and a closed baseline
    rests on at least 3 samples, whose mean and floored population
    deviation are the ones in use. *)
Definition stream_inv (st : Hrv.State) : Prop :=
  Py.maxsize (Hrv.queue st) = 0%Z /\ Hrv.base_std st <> 0 /\
  (Hrv.baseline_done st = true ->
     (3 <= length (Hrv.baseline_rmssds st))%nat /\
     Hrv.base_mean st = arith_mean (Hrv.baseline_rmssds st) /\
     Hrv.base_std st = floored_std (Hrv.baseline_rmssds st)).

End HrvSpec.

(** ** The session summary

    The 6-tuple [(pre_mean, post_mean, delta, t_last, len(pre_vals),
    len(post_vals))] that both versions of [compute_pre_post] return. *)

Record Summary : Type := mkSummary
  { pre_mean : R; post_mean : R; delta : R; t_last : R;
    n_pre : nat; n_post : nat }.

(** ** polar_run.py *)

Module PolarRun.
Import Controller.

Definition BASELINE_SECONDS : R := 60.
Definition PRE_WINDOW_SECONDS : R := 120.
Definition POST_WINDOW_SECONDS : R := 60.

(** A sample [(t_rel_s, rmssd_z, tempo, pitch, volume)]. *)
Record Sample : Type := mkSample
  { s_t : R; s_z : R; s_tempo : R; s_pitch : R; s_volume : R }.

Definition compute_pre_post (samples : list Sample) : Py.result Summary :=
  match samples with
  | [] => Py.Raise (Py.ValueError "No samples to compute pre/post windows."%string)
  | s0 :: _ =>
      let t_last := s_t (last samples s0) in
      let pre_vals :=
        map s_z (filter (fun s => Py.leb (s_t s) PRE_WINDOW_SECONDS) samples) in
      let post_start := Py.max2 0.0 (t_last - POST_WINDOW_SECONDS) in
      let post_vals :=
        map s_z (filter (fun s => Py.geb (s_t s) post_start) samples) in
      pre_mean <- Py.div (Py.sum pre_vals) (Py.len pre_vals) ;;
      post_mean <- Py.div (Py.sum post_vals) (Py.len post_vals) ;;
      let delta := post_mean - pre_mean in
      Py.Ok (mkSummary pre_mean post_mean delta t_last
               (length pre_vals) (length post_vals))
  end.

(** [apply_biofeedback]: the new value of the global [current_params].
    The audio engine is an external sink and [faa_z] is always [None]. *)
Definition apply_biofeedback (current_params : AudioParams) (t_rel z : R)
    (is_baseline is_post_window : bool) : AudioParams :=
  update_audio_params current_params (Some z) None is_baseline is_post_window.

(** The variables of [run_session] that its stream loops read and write. *)
Record Loop : Type := mkLoop
  { t0 : option R;
    samples : list Sample;
    current_params : AudioParams }.

(** What one turn of a stream loop observes: the z-score yielded by the
    stream, the clock reading taken for [t0] (used on the first turn
    only), whether the audio engine exists and reports [finished], and
    the clock reading taken for [t_rel]. *)
Record Turn : Type := mkTurn
  { turn_z : R;
    turn_clock0 : R;
    turn_finished : bool;
    turn_clock : R }.

(** The body of [async for z in ...], the same in the live and in the
    simulated loop; the second component tells whether the loop goes on
    ([false] after [break]). *)
Definition loop_body (l : Loop) (u : Turn) : Loop * bool :=
  let t0' := match t0 l with
             | None => turn_clock0 u
             | Some t => t
             end in
  if turn_finished u then (mkLoop (Some t0') (samples l) (current_params l), false)
  else
    let t_rel := turn_clock u - t0' in
    let cp := current_params l in
    let samples' :=
      samples l ++ [mkSample t_rel (turn_z u) (tempo cp) (pitch cp) (volume cp)] in
    let is_baseline := Py.leb t_rel BASELINE_SECONDS in
    let is_post_window := false in
    (mkLoop (Some t0') samples'
       (apply_biofeedback cp t_rel (turn_z u) is_baseline is_post_window),
     true).

Fixpoint stream_loop (l : Loop) (us : list Turn) : Loop :=
  match us with
  | [] => l
  | u :: us' =>
      let (l', continue) := loop_body l u in
      if continue then stream_loop l' us' else l'
  end.

(** [run_session] up to its first stream loop: no samples, the default
    parameters, [t0 = None]. *)
Definition session_start : Loop := mkLoop None [] default_params.

(** The parameters logged in a sample. *)
Definition logged (s : Sample) : AudioParams :=
  mkAudioParams (s_tempo s) (s_pitch s) (s_volume s).

(** [run_session] from its first loop to the end of its last: the live
    loop, then, when the live stream raised for a missing sensor, [t0] is
    cleared and the simulated loop runs on the same variables. *)
Definition run_session_loops (live : list Turn) (simulated : option (list Turn)) : Loop :=
  let l := stream_loop session_start live in
  match simulated with
  | None => l
  | Some us => stream_loop (mkLoop None (samples l) (current_params l)) us
  end.

(** The controller update of the tick that logged sample [s]: from the
    parameters logged in [s], with the z-score and the time of [s]. *)
Definition update_after (s : Sample) : AudioParams :=
  update_audio_params (logged s) (Some (s_z s)) None
    (Py.leb (s_t s) BASELINE_SECONDS) false.

(** Every sample logs the parameters in force before its own tick: [p] for
    the first one, and for each later one the result of the controller
    update of the tick before. *)
Fixpoint lagging (p : AudioParams) (ss : list Sample) : Prop :=
  match ss with
  | [] => True
  | s :: ss' => logged s = p /\ lagging (update_after s) ss'
  end.

(** The parameters in force after the ticks of [ss], starting from [p]. *)
Definition params_after (p : AudioParams) (ss : list Sample) : AudioParams :=
  fold_left (fun _ s => update_after s) ss p.

(** What the session loops maintain. *)
Definition lag_inv (l : Loop) : Prop :=
  lagging default_params (samples l) /\
  current_params l = params_after default_params (samples l).

(** The [(t_rel, z)] part of the samples. *)
Definition times_and_z (ss : list Sample) : list (R * R) :=
  map (fun s => (s_t s, s_z s)) ss.

End PolarRun.

(** ** session_stress_csv.py *)

Module SessionStressCsv.

Definition BASELINE_SECONDS : R := 120.
Definition POST_WINDOW_SECONDS : R := 60.

(** A sample [(t_rel, z)]. *)
Definition Sample : Type := (R * R)%type.

Definition compute_pre_post (samples : list Sample) : Py.result Summary :=
  match samples with
  | [] => Py.Raise (Py.ValueError "No samples to compute statistics on."%string)
  | s0 :: _ =>
      let t_last := fst (last samples s0) in
      let pre_window_end := BASELINE_SECONDS in
      let post_window_start := Py.max2 0.0 (t_last - POST_WINDOW_SECONDS) in
      let pre_vals :=
        map snd (filter (fun s => Py.leb (fst s) pre_window_end) samples) in
      let post_vals :=
        map snd (filter (fun s => Py.geb (fst s) post_window_start) samples) in
      match pre_vals with
      | [] =>
          Py.Raise (Py.ValueError
            "No pre-window samples collected. Increase BASELINE_SECONDS or run longer."%string)
      | _ =>
          match post_vals with
          | [] =>
              Py.Raise (Py.ValueError
                "No post-window samples collected. Increase POST_WINDOW_SECONDS or run longer."%string)
          | _ =>
              pre_mean <- Py.div (Py.sum pre_vals) (Py.len pre_vals) ;;
              post_mean <- Py.div (Py.sum post_vals) (Py.len post_vals) ;;
              let delta := post_mean - pre_mean in
              Py.Ok (mkSummary pre_mean post_mean delta t_last
                       (length pre_vals) (length post_vals))
          end
      end
  end.

End SessionStressCsv.

(** ** The summary as the specification words it *)

Module SummarySpec.

(** [z] of the samples, given as [(t_rel, z)], with [t_rel <= pre_window]. *)
Definition pre_window (pre_window_seconds : R) (tz : list (R * R)) : list R :=
  map snd (filter (fun s => Py.leb (fst s) pre_window_seconds) tz).

(** [z] of the samples with [t_rel >= t_last - post_window]. *)
Definition post_window (post_window_seconds : R) (tz : list (R * R)) : list R :=
  let t_last := fst (last tz (0, 0)) in
  map snd (filter (fun s => Py.geb (fst s) (t_last - post_window_seconds)) tz).

(** The same with the window start the code uses, never below 0. *)
Definition post_window_from0 (post_window_seconds : R) (tz : list (R * R)) : list R :=
  let t_last := fst (last tz (0, 0)) in
  map snd (filter (fun s =>
    Py.geb (fst s) (Rmax 0 (t_last - post_window_seconds))) tz).

(** An "insufficient data" failure: a [ValueError] that reports missing
    samples. *)
Definition insufficient_data {A : Type} (r : Py.result A) : Prop :=
  match r with
  | Py.Raise (Py.ValueError _) => True
  | _ => False
  end.

(** The summary as claimed: the means of the two windows and their
    difference when both windows hold samples, an "insufficient data"
    failure when one is empty. *)
Definition as_claimed (pre_s post_s : R) (tz : list (R * R))
    (r : Py.result Summary) : Prop :=
  let pre := pre_window pre_s tz in
  let post := post_window post_s tz in
  (pre <> [] -> post <> [] ->
     exists sm, r = Py.Ok sm /\
       pre_mean sm = HrvSpec.arith_mean pre /\
       post_mean sm = HrvSpec.arith_mean post /\
       delta sm = post_mean sm - pre_mean sm) /\
  (pre = [] \/ post = [] -> insufficient_data r).

(** The summary when both windows hold samples, the post window starting
    where the code starts it. *)
Definition summarises (pre_s post_s : R) (tz : list (R * R))
    (r : Py.result Summary) : Prop :=
  let pre := pre_window pre_s tz in
  let post := post_window_from0 post_s tz in
  pre <> [] -> post <> [] ->
  exists sm, r = Py.Ok sm /\
    pre_mean sm = HrvSpec.arith_mean pre /\
    post_mean sm = HrvSpec.arith_mean post /\
    delta sm = post_mean sm - pre_mean sm /\
    t_last sm = fst (last tz (0, 0)) /\
    n_pre sm = length pre /\ n_post sm = length post.

(** Samples whose post window the claim and the code cut differently. *)
Definition early_samples : list PolarRun.Sample :=
  [PolarRun.mkSample (-5) 1 1.0 (-2.0) 60.0; PolarRun.mkSample 10 3 1.0 (-2.0) 60.0].

(** Samples with an empty pre window. *)
Definition late_samples : list PolarRun.Sample :=
  [PolarRun.mkSample 200 0.5 1.0 (-2.0) 60.0].

End SummarySpec.

(** ** A concrete stream

    The default configuration, started at clock reading 0, and frames
    with flags 0x10, an 8-bit heart rate of 60 and intervals of 1024/1024
    s (bytes 00 04), which arrive at clock readings 1, 2, 61, 62 and 63. *)

Module Scenario.
Import Hrv.

Definition cfg : Config := mkConfig 60.0 20 0.

Definition frame1 : list byte := [x10; x3c; x00; x04].
Definition frame3 : list byte := [x10; x3c; x00; x04; x00; x04; x00; x04].

(** Three notifications: the baseline closes on the third. *)
Definition calibration : list Event := [(frame3, 1); (frame1, 2); (frame1, 61)].

(** A fourth one: the first z-score is queued. *)
Definition first_emission : list Event := calibration ++ [(frame1, 62)].

Definition closed_state : State :=
  mkState (repeat 1000 5) [0; 0; 0] true 0 0.01 Py.new_queue.

(** The state after the first emission: one z-score waits in the queue. *)
Definition undrained_state : State :=
  mkState (repeat 1000 6) [0; 0; 0] true 0 0.01 (Py.mkQueue 0 [0]).

(** The state after a further notification. *)
Definition overfull_state : State :=
  mkState (repeat 1000 7) [0; 0; 0] true 0 0.01 (Py.mkQueue 0 [0; 0]).

End Scenario.

(** ** More Python builtins *)

Module PyMore.

(** [int(x)] on a float: the integer part, truncated toward zero. *)
Definition int (x : R) : Z :=
  if Rle_dec 0 x then Int_part x else (- Int_part (- x))%Z.

(** [random.uniform(a, b)], which is [a + (b - a) * random()]; [u] is the
    value [random()] returns, a float in [0, 1). *)
Definition uniform (a b u : R) : R := a + (b - a) * u.

End PyMore.

(** ** audio_engine.py *)

Module AudioEngine.
Import Controller.

(** What [set_params] hands to the player: the argument of [set_rate] and
    the argument of [audio_set_volume]. *)
Record Applied : Type := mkApplied { rate : R; volume_int : Z }.

Definition base_rate : R := 1.05.

(** [AudioEngine.set_params(params)] for an [AudioParams]; the pitch is
    read and printed only. *)
Definition set_params (params : AudioParams) : Applied :=
  let t := tempo params in
  let v := volume params in
  let rate0 := base_rate * t in
  let rate1 := Py.max2 0.90 (Py.min2 1.20 rate0) in
  let volume_int := PyMore.int (Py.max2 0 (Py.min2 100 v)) in
  mkApplied rate1 volume_int.

End AudioEngine.

(** ** sim_run.py *)

Module SimRun.
Import Controller.

Definition dt : R := 1.0.

(** The [AudioParams] the generator yields at its time [t]. *)
Definition params_at (t : R) : AudioParams :=
  let s := sin (t / 20.0) in
  let tempo := 1.0 - 0.2 * s in
  let pitch := 0.0 in
  let volume := 60 + 20 * s in
  mkAudioParams tempo pitch volume.

(** The loop of [simulated_param_stream] from its time [t]: its first [n]
    yields. *)
Fixpoint stream_from (t : R) (n : nat) : list AudioParams :=
  match n with
  | O => []
  | S n' => params_at t :: stream_from (t + dt) n'
  end.

(** The first [n] yields of [simulated_param_stream()]. *)
Definition simulated_param_stream (n : nat) : list AudioParams :=
  stream_from 0.0 n.

End SimRun.

(** ** polar_run.py: the simulated stream *)

Module PolarSim.

(** What one turn of the generator's loop observes: the clock reading and
    the value of [random()]. *)
Record Draw : Type := mkDraw { draw_clock : R; draw_random : R }.

(** The z-score yielded on a turn of [simulated_rmssd_z_stream] started
    at clock reading [t0]. *)
Definition simulated_z (t0 : R) (d : Draw) : R :=
  let t := draw_clock d - t0 in
  let slow := 0.6 * sin (2.0 * PI * t / 90.0) in
  let noise := PyMore.uniform (-0.15) 0.15 (draw_random d) in
  slow + noise.

(** The yields of [simulated_rmssd_z_stream] over a finite run of turns. *)
Definition simulated_rmssd_z_stream (t0 : R) (ds : list Draw) : list R :=
  map (simulated_z t0) ds.

(** [random()] returns a float in [0, 1). *)
Definition well_drawn (d : Draw) : Prop := 0 <= draw_random d < 1.

End PolarSim.

(** ** Notions used to describe the sessions *)

Module SessionSpec.
Import Controller PolarRun.

(** The turns a stream loop processes: those before the first one on
    which the audio engine reports [finished]. *)
Fixpoint processed (us : list Turn) : list Turn :=
  match us with
  | [] => []
  | u :: us' => if turn_finished u then [] else u :: processed us'
  end.

(** The session start time a loop entered with [t0 = None] fixes on its
    first turn. *)
Definition start_time (us : list Turn) : R :=
  match us with
  | [] => 0
  | u :: _ => turn_clock0 u
  end.

(** The three parameter changes of one controller update. *)
Definition tempo_step (p q : AudioParams) : R := Rabs (tempo q - tempo p).
Definition pitch_step (p q : AudioParams) : R := Rabs (pitch q - pitch p).
Definition volume_step (p q : AudioParams) : R := Rabs (volume q - volume p).

(** All values of a list lie in [[a, b]]. *)
Definition all_within (a b : R) (xs : list R) : Prop :=
  Forall (fun x => a <= x <= b) xs.

(** All values of a list are equal. *)
Definition constant (xs : list R) : Prop :=
  forall x y, In x xs -> In y xs -> x = y.

End SessionSpec.

(** ** session_stress_csv.py: collecting the samples *)

Module Collect.

(** What the stream yields.  [collect_session_data] unpacks each item
    into four names; the stream of polar_hrv.py yields plain floats.  Both
    shapes are kept: a float, and a 4-tuple of floats
    [(timestamp, rr_ms, rmssd_ms, z_score)]. *)
Inductive Item : Type :=
| FloatItem (z : R)
| TupleItem (ts rr_ms rmssd_ms z : R).


Inductive error : Type :=
| TypeError
| RuntimeError (msg : string).

Inductive outcome (A : Type) : Type :=
| Returns (a : A)
| Raises (e : error).
Arguments Returns {A} a.
Arguments Raises {A} e.

(** The variables of the loop. *)
Record Vars : Type := mkVars
  { samples : list SessionStressCsv.Sample; t_start : option R }.

(** The body of [async for sample in rmssd_z_stream()]. *)
Definition loop_body (v : Vars) (item : Item) : outcome Vars :=
  match item with
  | FloatItem _ => Raises TypeError
  | TupleItem ts _ _ z =>
      let t_start' := match t_start v with None => ts | Some t => t end in
      let t_rel := ts - t_start' in
      Returns (mkVars (samples v ++ [(t_rel, z)]) (Some t_start'))
  end.





End Collect.

(** ** What a notification contributes, in the specification's words *)

Module CalibrationSpec.
Import Hrv HrvSpec.

(** The most recent [size] values of a window, all of them when it holds
    no more than [size]. *)
Definition recent (size : Z) (w0 : list R) : list R :=
  skipn (length w0 - Z.to_nat size) w0.

(** The interval window once the intervals of the frame are appended and
    the oldest beyond the capacity evicted. *)
Definition window_after (cfg : Config) (st : State) (data : list byte) : list R :=
  recent (rr_window_size cfg) (rr_ms_window st ++ intervals_ms data).

(** The frame yields an RMSSD sample: it is at least 3 bytes long, has the
    interval-presence bit, carries at least one interval, and the window
    then holds at least 3 intervals. *)
Definition yields_sample (cfg : Config) (st : State) (data : list byte) : Prop :=
  (3 <= length data)%nat /\
  Z.land (flags_of data) 16 <> 0%Z /\
  intervals_ms data <> [] /\
  (3 <= length (window_after cfg st data))%nat.

(** That sample: the RMSSD of the window, in seconds. *)
Definition sample_after (cfg : Config) (st : State) (data : list byte) : R :=
  rmssd (window_after cfg st data) / 1000.

(** A state of the concrete stream in which two samples are collected. *)
Definition collecting_state : State :=
  mkState (repeat 1000 4) [0; 0] false 0.0 1.0 Py.new_queue.

End CalibrationSpec.

(** * Proofs *)

(** ** The controller *)

Module ControllerProofs.
Import Controller.

Ltac unfold_consts :=
  unfold TEMPO_MIN, TEMPO_MAX, PITCH_MIN, PITCH_MAX, VOLUME_MIN, VOLUME_MAX,
    HRV_SETPOINT, HRV_KI_TEMPO, HRV_KI_PITCH, HRV_KI_VOLUME, DT, relax_alpha,
    FAA_KP_PITCH, FAA_KP_VOLUME in *.

Lemma clamp_bounds (lo hi x : R) :
  lo <= hi -> lo <= Py.max2 lo (Py.min2 hi x) <= hi.
Proof.
  intros Hle. unfold Py.max2, Py.min2.
  destruct (Rlt_dec x hi); destruct (Rlt_dec lo _); lra.
Qed.

Lemma update_clamped_in_range (p : AudioParams) (z : R) (faa : option R) (ipw : bool) :
  in_range (update_audio_params p (Some z) faa false ipw).
Proof.
  unfold in_range, update_audio_params; cbn [tempo pitch volume].
  repeat split; apply clamp_bounds; unfold_consts; lra.
Qed.

Lemma update_relax_eq (p : AudioParams) (hz faa : option R) (b ipw : bool) :
  b = true \/ hz = None ->
  update_audio_params p hz faa b ipw =
  mkAudioParams
    (tempo p + relax_alpha * (1.0 - tempo p))
    (pitch p + relax_alpha * (-2.0 - pitch p))
    (volume p + relax_alpha * (60.0 - volume p)).
Proof.
  intros [-> | ->]; [reflexivity | destruct b; reflexivity].
Qed.

Lemma update_relax_in_range (p : AudioParams) (hz faa : option R) (b ipw : bool) :
  b = true \/ hz = None ->
  in_range p -> in_range (update_audio_params p hz faa b ipw).
Proof.
  intros Hr (Ht & Hp & Hv). rewrite update_relax_eq by exact Hr.
  unfold in_range; cbn [tempo pitch volume]. unfold_consts. lra.
Qed.

Lemma update_in_range (p : AudioParams) (hz faa : option R) (b ipw : bool) :
  in_range p -> in_range (update_audio_params p hz faa b ipw).
Proof.
  intros Hp. destruct b.
  - apply update_relax_in_range; auto.
  - destruct hz as [z |].
    + apply update_clamped_in_range.
    + apply update_relax_in_range; auto.
Qed.

Lemma outputs_in_range (ts : list Tick) :
  forall p, in_range p -> Forall in_range (outputs p ts).
Proof.
  induction ts as [| t ts IH]; intros p Hp; cbn [outputs].
  - constructor.
  - assert (Hq : in_range (step p t)) by (apply update_in_range; exact Hp).
    constructor; [exact Hq | apply IH; exact Hq].
Qed.

Lemma default_in_range : in_range default_params.
Proof. unfold in_range, default_params; cbn. unfold_consts. lra. Qed.

(** *** Relaxation *)

Lemma toward_refl (n x : R) : toward n x x.
Proof. unfold toward. lra. Qed.

Lemma toward_trans (n x y z : R) : toward n x y -> toward n y z -> toward n x z.
Proof.
  unfold toward. intros (H1 & H2 & H3) (H4 & H5 & H6).
  repeat split; lra.
Qed.

Lemma relax_toward (n x : R) : toward n x (x + relax_alpha * (n - x)).
Proof.
  unfold toward, relax_alpha.
  replace (x + 0.02 * (n - x) - n) with (0.98 * (x - n)) by lra.
  rewrite Rabs_mult, (Rabs_right 0.98) by lra.
  pose proof (Rabs_pos (x - n)). repeat split; lra.
Qed.

Lemma step_toward_neutral (p : AudioParams) (t : Tick) :
  relaxes t -> toward_neutral p (step p t).
Proof.
  intros Hr. unfold step. rewrite update_relax_eq by exact Hr.
  unfold toward_neutral; cbn [tempo pitch volume].
  split; [| split]; apply relax_toward.
Qed.

Lemma toward_neutral_trans (p q r : AudioParams) :
  toward_neutral p q -> toward_neutral q r -> toward_neutral p r.
Proof.
  intros (A1 & A2 & A3) (B1 & B2 & B3).
  split; [| split]; eapply toward_trans; eassumption.
Qed.

Lemma run_toward_neutral (ts : list Tick) :
  forall p, Forall relaxes ts -> toward_neutral p (run p ts).
Proof.
  unfold run. induction ts as [| t ts IH]; intros p Hall; cbn [fold_left].
  - split; [| split]; apply toward_refl.
  - inversion Hall as [| ? ? Ht Hts]; subst.
    eapply toward_neutral_trans; [apply step_toward_neutral, Ht | apply IH, Hts].
Qed.

(** *** Saturation *)

Lemma aroused_S (p : AudioParams) (n : nat) :
  aroused p (S n) = step (aroused p n) aroused_tick.
Proof.
  unfold aroused, run.
  replace (S n) with (n + 1)%nat by lia.
  rewrite repeat_app, fold_left_app. reflexivity.
Qed.

Lemma step_aroused_tempo (q : AudioParams) :
  tempo (step q aroused_tick) =
  Py.max2 TEMPO_MIN (Py.min2 TEMPO_MAX (tempo q + HRV_KI_TEMPO * 1.0 * DT)).
Proof.
  unfold step, aroused_tick, update_audio_params; cbn [tick_hrv_z tick_faa_z
    tick_is_baseline tick_is_post_window tempo].
  do 3 f_equal. unfold HRV_SETPOINT. lra.
Qed.

Lemma aroused_tempo_closed (p : AudioParams) (n : nat) :
  tempo p = 1.0 ->
  tempo (aroused p n) =
  if (n <=? 15)%nat then 1.0 + 0.01 * INR n else TEMPO_MAX.
Proof.
  intros Hp. induction n as [| n IH].
  - cbn. lra.
  - rewrite aroused_S, step_aroused_tempo, IH.
    assert (Hn : (0 <= INR n)) by apply pos_INR.
    rewrite S_INR.
    destruct (Nat.leb_spec n 15) as [Hle | Hgt];
      destruct (Nat.leb_spec (S n) 15) as [Hle' | Hgt']; try lia.
    + apply le_INR in Hle'. rewrite S_INR in Hle'.
      replace (INR 15) with 15 in Hle' by (cbn; lra).
      unfold Py.max2, Py.min2. unfold_consts.
      destruct (Rlt_dec _ 1.15); destruct (Rlt_dec 0.85 _); lra.
    + assert (n = 15%nat) by lia. subst n.
      replace (INR 15) with 15 by (cbn; lra).
      unfold Py.max2, Py.min2. unfold_consts.
      destruct (Rlt_dec _ 1.15); destruct (Rlt_dec 0.85 _); lra.
    + unfold Py.max2, Py.min2. unfold_consts.
      destruct (Rlt_dec _ 1.15); destruct (Rlt_dec 0.85 _); lra.
Qed.

(** *** Claims about the controller *)

(** C1, as stated, fails: in the relaxation branch nothing is clamped, so
    a previous tempo of 2.0 during baseline gives 1.98, above
    [TEMPO_MAX]. *)
Lemma C1_relaxation_not_clamped :
  ~ in_range (update_audio_params (mkAudioParams 2.0 (-2.0) 60.0)
                (Some 0.0) None true false).
Proof.
  unfold in_range, update_audio_params; cbn [tempo pitch volume].
  unfold_consts. lra.
Qed.

(** C1, amended: the configured ranges are an invariant of the
    controller.  From previous parameters within range, every output of
    every finite input sequence is within range, whichever branch each
    update takes; and an update in the integral branch ([is_baseline]
    false, [hrv_z] present) is within range for any previous
    parameters. *)
Theorem C1_range_invariant :
  (forall (p : AudioParams) (ts : list Tick),
      in_range p -> Forall in_range (outputs p ts)) /\
  (forall (p : AudioParams) (z : R) (faa_z : option R) (is_post_window : bool),
      in_range (update_audio_params p (Some z) faa_z false is_post_window)).
Proof.
  split.
  - intros p ts Hp. apply outputs_in_range, Hp.
  - intros. apply update_clamped_in_range.
Qed.

Lemma C1_range_invariant_witness :
  in_range default_params /\
  Forall in_range
    (outputs default_params
       [mkTick None None true false; mkTick (Some (-40.0)) (Some 3.0) false false]).
Proof.
  split.
  - exact default_in_range.
  - apply (proj1 C1_range_invariant). exact default_in_range.
Defined.

Lemma relax_moves_toward (n x : R) : moves_toward n x (x + relax_alpha * (n - x)).
Proof.
  split; [apply relax_toward |].
  intros Hx. unfold relax_alpha.
  replace (x + 0.02 * (n - x) - n) with (0.98 * (x - n)) by lra.
  rewrite Rabs_mult, (Rabs_right 0.98) by lra.
  assert (Hpos : 0 < Rabs (x - n)) by (apply Rabs_pos_lt; lra).
  lra.
Qed.

Lemma moves_toward_then_toward (n x y z : R) :
  moves_toward n x y -> toward n y z -> moves_toward n x z.
Proof.
  intros [Hxy Hstrict] Hyz. split; [eapply toward_trans; eassumption |].
  intros Hx. specialize (Hstrict Hx). destruct Hyz as (Hle & _). lra.
Qed.

Lemma step_moves_toward_neutral (p : AudioParams) (t : Tick) :
  relaxes t -> moves_toward_neutral p (step p t).
Proof.
  intros Hr. unfold step. rewrite update_relax_eq by exact Hr.
  unfold moves_toward_neutral; cbn [tempo pitch volume].
  split; [| split]; apply relax_moves_toward.
Qed.

Lemma run_moves_toward_neutral (p : AudioParams) (ts : list Tick) :
  Forall relaxes ts -> ts <> [] -> moves_toward_neutral p (run p ts).
Proof.
  intros Hall Hne. destruct ts as [| t ts]; [contradiction |].
  inversion Hall as [| ? ? Ht Hts]; subst.
  destruct (step_moves_toward_neutral p t Ht) as (M1 & M2 & M3).
  destruct (run_toward_neutral ts (step p t) Hts) as (T1 & T2 & T3).
  change (run p (t :: ts)) with (run (step p t) ts).
  split; [| split]; eapply moves_toward_then_toward; eassumption.
Qed.

(** C6: on every tick with [is_baseline] true or [hrv_z] absent, from any
    parameters, each parameter is moved by the fraction 0.02 of its
    offset toward its neutral value (tempo 1.0, pitch -2.0, volume 60.0):
    it ends on the same side of the neutral value, no farther from it,
    and strictly nearer unless it was there already.  Across any sequence
    of such ticks no parameter ends farther from neutral or on the other
    side, and across a non-empty one each parameter that was off neutral
    ends strictly nearer. *)
Theorem C6_relaxation_monotone :
  (forall (p : AudioParams) (t : Tick),
      relaxes t ->
      tempo (step p t) = tempo p + 0.02 * (1.0 - tempo p) /\
      pitch (step p t) = pitch p + 0.02 * (-2.0 - pitch p) /\
      volume (step p t) = volume p + 0.02 * (60.0 - volume p) /\
      toward_neutral p (step p t) /\
      moves_toward_neutral p (step p t)) /\
  (forall (p : AudioParams) (ts : list Tick),
      Forall relaxes ts ->
      toward_neutral p (run p ts) /\
      (ts <> [] -> moves_toward_neutral p (run p ts))).
Proof.
  split.
  - intros p t Hr.
    assert (Heq : step p t =
                  mkAudioParams (tempo p + relax_alpha * (1.0 - tempo p))
                    (pitch p + relax_alpha * (-2.0 - pitch p))
                    (volume p + relax_alpha * (60.0 - volume p))).
    { unfold step. apply update_relax_eq. exact Hr. }
    split; [rewrite Heq; reflexivity |].
    split; [rewrite Heq; reflexivity |].
    split; [rewrite Heq; reflexivity |].
    split; [apply step_toward_neutral | apply step_moves_toward_neutral]; exact Hr.
  - intros p ts Hall. split.
    + apply run_toward_neutral. exact Hall.
    + intros Hne. apply run_moves_toward_neutral; assumption.
Qed.

Lemma C6_relaxation_monotone_witness :
  relaxes (mkTick (Some 0.5) None true false) /\
  tempo (step (mkAudioParams 1.15 (-6.0) 52.0) (mkTick (Some 0.5) None true false))
  = 1.15 + 0.02 * (1.0 - 1.15) /\
  moves_toward_neutral (mkAudioParams 1.15 (-6.0) 52.0)
    (step (mkAudioParams 1.15 (-6.0) 52.0) (mkTick (Some 0.5) None true false)).
Proof.
  assert (H : relaxes (mkTick (Some 0.5) None true false)) by (left; reflexivity).
  destruct (proj1 C6_relaxation_monotone (mkAudioParams 1.15 (-6.0) 52.0)
              (mkTick (Some 0.5) None true false) H) as (Ht & _ & _ & _ & Hm).
  split; [exact H |]. split; [exact Ht | exact Hm].
Defined.

(** C7: from tempo 1.0, under repeated ticks with [hrv_z = -1.0], no FAA
    and [is_baseline] false, each of the first 15 ticks raises tempo by
    [HRV_KI_TEMPO * 1.0 * DT = 0.01], strictly and from below
    [TEMPO_MAX]; after 15 ticks, and after every later tick, tempo is
    exactly [TEMPO_MAX = 1.15]. *)
Theorem C7_tempo_saturates (p : AudioParams) (n : nat) :
  tempo p = 1.0 ->
  HRV_KI_TEMPO * 1.0 * DT = 0.01 /\
  ((n < 15)%nat ->
     tempo (aroused p n) < TEMPO_MAX /\
     tempo (aroused p (S n)) = tempo (aroused p n) + HRV_KI_TEMPO * 1.0 * DT /\
     tempo (aroused p n) < tempo (aroused p (S n))) /\
  ((15 <= n)%nat -> tempo (aroused p n) = TEMPO_MAX).
Proof.
  intros Hp. split; [unfold_consts; lra |]. split.
  - intros Hn.
    rewrite !aroused_tempo_closed by exact Hp.
    destruct (Nat.leb_spec n 15); destruct (Nat.leb_spec (S n) 15); try lia.
    rewrite S_INR.
    assert (Hle : INR n <= 14).
    { replace 14 with (INR 14) by (cbn; lra). apply le_INR. lia. }
    unfold_consts. lra.
  - intros Hn.
    rewrite aroused_tempo_closed by exact Hp.
    destruct (Nat.leb_spec n 15).
    + assert (n = 15%nat) by lia. subst n. cbn. unfold_consts. lra.
    + reflexivity.
Qed.

Lemma C7_tempo_saturates_witness :
  tempo default_params = 1.0 /\
  tempo (aroused default_params 14) < tempo (aroused default_params 15) /\
  tempo (aroused default_params 20) = TEMPO_MAX.
Proof.
  assert (H : tempo default_params = 1.0) by reflexivity.
  split; [exact H |]. split.
  - apply (C7_tempo_saturates default_params 14 H). lia.
  - apply (C7_tempo_saturates default_params 20 H). lia.
Defined.

End ControllerProofs.

(** ** Python builtins *)

Module PyProofs.

Lemma sum_fold_right (xs : list R) : Py.sum xs = fold_right Rplus 0 xs.
Proof.
  unfold Py.sum. apply fold_symmetric; intros; lra.
Qed.

Lemma div_ok (a b : R) : b <> 0 -> Py.div a b = Py.Ok (a / b).
Proof.
  intros Hb. unfold Py.div. destruct (Req_dec_T b 0); [contradiction | reflexivity].
Qed.

Lemma div_zero (a : R) : Py.div a 0 = Py.Raise Py.ZeroDivisionError.
Proof.
  unfold Py.div. destruct (Req_dec_T 0 0); [reflexivity | contradiction].
Qed.

Lemma sqrt_ok (x : R) : 0 <= x -> Py.sqrt x = Py.Ok (sqrt x).
Proof.
  intros Hx. unfold Py.sqrt. destruct (Rlt_dec x 0); [lra | reflexivity].
Qed.

Lemma leb_true (a b : R) : Py.leb a b = true <-> a <= b.
Proof.
  unfold Py.leb. destruct (Rle_dec a b); split; intros; try easy.
Qed.

Lemma geb_true (a b : R) : Py.geb a b = true <-> a >= b.
Proof.
  unfold Py.geb. destruct (Rge_dec a b); split; intros; try easy.
Qed.

Lemma len_pos (xs : list R) : xs <> [] -> 0 < Py.len xs.
Proof.
  intros Hx. unfold Py.len. destruct xs as [| x xs]; [contradiction |].
  apply lt_0_INR. cbn. lia.
Qed.

Lemma sum_squares_nonneg (f : R -> R) (xs : list R) :
  0 <= fold_right Rplus 0 (map (fun x => f x * f x) xs).
Proof.
  induction xs as [| x xs IH]; cbn; [lra |].
  pose proof (Rle_0_sqr (f x)) as Hsq. unfold Rsqr in Hsq. lra.
Qed.

Lemma max2_Rmax (a b : R) : Py.max2 a b = Rmax a b.
Proof.
  unfold Py.max2, Rmax. destruct (Rlt_dec a b); destruct (Rle_dec a b); lra.
Qed.

End PyProofs.

(** ** RMSSD *)

Module RmssdProofs.
Import Hrv HrvSpec PyProofs.

Lemma successive_diffs_length (w : list R) :
  length (successive_diffs w) = (length w - 1)%nat.
Proof.
  induction w as [| x [| y w'] IH]; try reflexivity.
  change (successive_diffs (x :: y :: w')) with ((y - x) :: successive_diffs (y :: w')).
  cbn [length] in *. lia.
Qed.

(** The indexed loop of [compute_rmssd] builds the successive differences. *)
Lemma diffs_loop (w : list R) :
  map (fun i => nth i w 0 - nth (i - 1) w 0) (seq 1 (length w - 1)) =
  successive_diffs w.
Proof.
  induction w as [| x [| y w'] IH]; try reflexivity.
  change (successive_diffs (x :: y :: w')) with ((y - x) :: successive_diffs (y :: w')).
  rewrite <- IH.
  replace (length (x :: y :: w') - 1)%nat with (S (length (y :: w') - 1))
    by (cbn [length]; lia).
  cbn [seq map]. f_equal.
  rewrite <- seq_shift, map_map.
  apply map_ext_in. intros i Hi. apply in_seq in Hi.
  destruct i as [| i]; [lia |].
  replace (S (S i) - 1)%nat with (S (S i - 1)) by lia.
  reflexivity.
Qed.

Lemma compute_rmssd_short (w : list R) :
  (length w < 3)%nat -> compute_rmssd w = Py.Ok None.
Proof.
  intros Hlen. unfold compute_rmssd.
  destruct (Nat.ltb_spec (length w) 3); [reflexivity | lia].
Qed.

Lemma compute_rmssd_long (w : list R) :
  (3 <= length w)%nat -> compute_rmssd w = Py.Ok (Some (rmssd w / 1000)).
Proof.
  intros Hlen. unfold compute_rmssd, rmssd, arith_mean.
  destruct (Nat.ltb_spec (length w) 3); [lia |].
  rewrite diffs_loop.
  pose proof (successive_diffs_length w) as Hd.
  destruct (successive_diffs w) as [| d ds] eqn:Ed; [cbn in Hd; lia |].
  rewrite sum_fold_right.
  assert (Hlenpos : 0 < Py.len (d :: ds)) by (apply len_pos; discriminate).
  rewrite div_ok by lra. cbn [Py.bind].
  rewrite sqrt_ok.
  - cbn [Py.bind]. rewrite div_ok by lra. cbn [Py.bind].
    unfold Py.len. rewrite length_map. do 3 f_equal; lra.
  - apply Rmult_le_pos.
    + apply (sum_squares_nonneg (fun d => d)).
    + left. apply Rinv_0_lt_compat. exact Hlenpos.
Qed.

Lemma compute_rmssd_total (w : list R) : exists r, compute_rmssd w = Py.Ok r.
Proof.
  destruct (Nat.lt_ge_cases (length w) 3).
  - eexists. apply compute_rmssd_short. assumption.
  - eexists. apply compute_rmssd_long. assumption.
Qed.

Lemma rmssd_example : rmssd [900; 950; 1000] / 1000 = 0.05.
Proof.
  unfold rmssd, arith_mean. cbn.
  replace ((950 - 900) * (950 - 900) + ((1000 - 950) * (1000 - 950) + 0))
    with (50 * 50 * (1 + 1)) by lra.
  replace (50 * 50 * (1 + 1) / (1 + 1)) with (50 * 50) by lra.
  rewrite sqrt_square by lra. lra.
Qed.

(** C3: with at least 3 values [compute_rmssd] returns the square root of
    the mean of the squared successive differences, taken in window
    order, divided by 1000; with fewer than 3 it returns [None]; and for
    the window [900, 950, 1000] ms the result is 0.05 s. *)
Theorem C3_compute_rmssd :
  (forall w : list R, (3 <= length w)%nat ->
     compute_rmssd w =
     Py.Ok (Some (sqrt (arith_mean (map (fun d => d * d) (successive_diffs w))) / 1000))) /\
  (forall w : list R, (length w < 3)%nat -> compute_rmssd w = Py.Ok None) /\
  compute_rmssd [900; 950; 1000] = Py.Ok (Some 0.05).
Proof.
  split; [| split].
  - intros w Hw. apply compute_rmssd_long, Hw.
  - intros w Hw. apply compute_rmssd_short, Hw.
  - rewrite compute_rmssd_long by (cbn; lia). rewrite rmssd_example. reflexivity.
Qed.

Lemma C3_compute_rmssd_witness :
  (3 <= length [800; 810; 790; 805])%nat /\
  compute_rmssd [800; 810; 790; 805] =
  Py.Ok (Some (sqrt (arith_mean (map (fun d => d * d)
                 (successive_diffs [800; 810; 790; 805]))) / 1000)).
Proof.
  assert (H : (3 <= length [800; 810; 790; 805])%nat) by (cbn; lia).
  split; [exact H | apply (proj1 C3_compute_rmssd); exact H].
Defined.

End RmssdProofs.

(** ** Frames *)

Module FrameProofs.
Import Hrv HrvSpec PyProofs.

Lemma from_bytes_little_pair (lo hi : byte) :
  Py.from_bytes_little [lo; hi] = le_uint16 lo hi.
Proof. unfold le_uint16. cbn [Py.from_bytes_little]. lia. Qed.

Lemma le_uint16_range (lo hi : byte) : (0 <= le_uint16 lo hi < 65536)%Z.
Proof.
  unfold le_uint16.
  pose proof (Byte.to_N_bounded lo). pose proof (Byte.to_N_bounded hi). lia.
Qed.

(** Induction over a list two elements at a time. *)
Lemma pair_induction {A : Type} (P : list A -> Prop) :
  P [] -> (forall a, P [a]) -> (forall a b l, P l -> P (a :: b :: l)) ->
  forall l, P l.
Proof.
  intros H0 H1 H2 l.
  enough (H : P l /\ forall a, P (a :: l)) by apply H.
  induction l as [| b l [IHl IHal]]; split; auto.
Qed.

Lemma rr_loop_indexed (l : list byte) :
  rr_loop l =
  map (fun k => IZR (le_uint16 (nth (2 * k) l x00) (nth (2 * k + 1) l x00))
                / 1024 * 1000)
      (seq 0 (length l / 2)).
Proof.
  induction l as [| a | lo hi l IH] using pair_induction; try reflexivity.
  cbn [rr_loop].
  replace (length (lo :: hi :: l) / 2)%nat with (S (length l / 2)).
  2:{ cbn [length]. replace (S (S (length l))) with (1 * 2 + length l)%nat by lia.
      rewrite Nat.div_add_l by lia. lia. }
  cbn [seq map]. f_equal.
  - rewrite from_bytes_little_pair. cbn [Nat.mul Nat.add nth]. lra.
  - rewrite IH, <- seq_shift, map_map.
    apply map_ext. intros k.
    replace (2 * S k)%nat with (S (S (2 * k))) by lia.
    replace (S (S (2 * k)) + 1)%nat with (S (S (2 * k + 1))) by lia.
    reflexivity.
Qed.

(** The handler's loop, started at its offset, yields the intervals of the
    frame as the interface describes them. *)
Lemma rr_loop_intervals (data : list byte) :
  rr_loop (skipn (if flag_set (byte_val (nth 0 data x00)) 1 then 3 else 2)%nat data) =
  intervals_ms data.
Proof.
  rewrite rr_loop_indexed.
  unfold intervals_ms, interval_count, interval_seconds, interval_offset.
  unfold flag_set, byte_val, flags_of.
  destruct (Z.land _ 1 =? 0)%Z; cbn [negb];
    [set (off := 2%nat) | set (off := 3%nat)].
  all: cbv zeta.
  all: rewrite length_skipn.
  all: apply map_ext; intros k; rewrite !nth_skipn.
  all: replace (off + (2 * k + 1))%nat with (off + 2 * k + 1)%nat by lia.
  all: reflexivity.
Qed.

End FrameProofs.

(** ** The notification handler *)

Module HrvProofs.
Import Hrv HrvSpec PyProofs RmssdProofs FrameProofs.

Lemma mean_ok (xs : list R) : xs <> [] -> Py.mean xs = Py.Ok (arith_mean xs).
Proof.
  intros Hx. destruct xs as [| x xs]; [contradiction |].
  unfold Py.mean, arith_mean, Py.len. rewrite sum_fold_right. reflexivity.
Qed.

Lemma pstdev_ok (xs : list R) : xs <> [] -> Py.pstdev xs = Py.Ok (population_std xs).
Proof.
  intros Hx. destruct xs as [| x xs]; [contradiction |].
  unfold Py.pstdev, population_std, arith_mean, Py.len.
  rewrite !sum_fold_right, length_map. reflexivity.
Qed.

Lemma or_else_floor (xs : list R) :
  Py.or_else (population_std xs) 0.01 = floored_std xs.
Proof. reflexivity. Qed.

Lemma floored_std_nonzero (xs : list R) : floored_std xs <> 0.
Proof.
  unfold floored_std, std_floor.
  destruct (Req_dec_T (population_std xs) 0); [lra | assumption].
Qed.

(** The handler takes exactly the transitions of [outcome]. *)
Lemma handler_outcome (cfg : Config) (st : State) (data : list byte) (now : R) :
  outcome cfg st data now (hrm_notification_handler cfg st data now).
Proof.
  unfold hrm_notification_handler.
  destruct (Nat.ltb_spec (length data) 3) as [Hshort | Hlong].
  { apply ignored. intros (H & _). lia. }
  change (flag_set (byte_val (nth 0 data x00)) 16) with (intervals_present data).
  destruct (intervals_present data) eqn:Hpresent; cbn [negb].
  2:{ apply ignored. intros (_ & H & _). congruence. }
  rewrite rr_loop_intervals.
  destruct (intervals_ms data) as [| i0 rr] eqn:Hrr.
  { apply ignored. intros (_ & _ & H). congruence. }
  assert (Hacc : accepted data).
  { repeat split; [lia | assumption | congruence]. }
  assert (Hw : keep_recent cfg (rr_ms_window st ++ i0 :: rr) = new_window cfg st data).
  { unfold new_window. rewrite Hrr. reflexivity. }
  rewrite Hw.
  destruct (Nat.lt_ge_cases (length (new_window cfg st data)) 3) as [Hfew | Henough].
  { rewrite compute_rmssd_short by exact Hfew. cbn [Py.bind].
    apply no_sample; assumption. }
  rewrite compute_rmssd_long by exact Henough. cbn [Py.bind].
  fold (new_sample cfg st data).
  destruct (baseline_done st) eqn:Hdone; cbn [negb].
  - unfold Py.div. destruct (Req_dec_T (base_std st) 0) as [Hz | Hnz]; cbn [Py.bind].
    { apply zero_division; assumption. }
    fold (new_z cfg st data).
    unfold Py.put_nowait. destruct (Py.full (queue st)) eqn:Hfull.
    + apply drop; assumption.
    + apply emit; assumption.
  - fold (collected cfg st data). fold (elapsed cfg now).
    assert (Hne : collected cfg st data <> []).
    { unfold collected. intros H. apply app_eq_nil in H. destruct H; discriminate. }
    destruct (Py.geb (elapsed cfg now) (baseline_duration_s cfg)) eqn:Hel;
      destruct (Nat.leb_spec 3 (length (collected cfg st data))) as [Hcnt | Hcnt];
      cbn [andb].
    + rewrite mean_ok, pstdev_ok by exact Hne. cbn [Py.bind].
      rewrite or_else_floor. apply close; try assumption.
      split; [apply geb_true; exact Hel | exact Hcnt].
    + apply collect; try assumption. intros (_ & H). lia.
    + apply collect; try assumption. intros (H & _).
      apply geb_true in H. congruence.
    + apply collect; try assumption. intros (_ & H). lia.
Qed.

(** From a state whose closed baseline has a non-zero deviation, the
    handler returns. *)
Lemma handler_returns (cfg : Config) (st : State) (data : list byte) (now : R) :
  (baseline_done st = true -> base_std st <> 0) ->
  exists st', hrm_notification_handler cfg st data now = Py.Ok st'.
Proof.
  intros Hstd.
  pose proof (handler_outcome cfg st data now) as Hout.
  inversion Hout; try (eexists; reflexivity).
  exfalso. apply Hstd; assumption.
Qed.

(** *** Which transition is taken *)

Ltac by_outcome :=
  match goal with
  | |- hrm_notification_handler ?cfg ?st ?data ?now = _ =>
      let Hout := fresh "Hout" in
      pose proof (handler_outcome cfg st data now) as Hout;
      inversion Hout; try reflexivity; try congruence; try lia;
      try contradiction
  end.

Lemma handler_ignored (cfg : Config) (st : State) (data : list byte) (now : R) :
  ~ accepted data -> hrm_notification_handler cfg st data now = Py.Ok st.
Proof. intros Hna. by_outcome. Qed.

Lemma handler_no_sample (cfg : Config) (st : State) (data : list byte) (now : R) :
  accepted data -> (length (new_window cfg st data) < 3)%nat ->
  hrm_notification_handler cfg st data now =
  Py.Ok (mkState (new_window cfg st data) (baseline_rmssds st) (baseline_done st)
           (base_mean st) (base_std st) (queue st)).
Proof. intros Hacc Hlen. by_outcome. Qed.

Lemma handler_collect (cfg : Config) (st : State) (data : list byte) (now : R) :
  accepted data -> (3 <= length (new_window cfg st data))%nat ->
  baseline_done st = false -> ~ closing cfg st data now ->
  hrm_notification_handler cfg st data now =
  Py.Ok (mkState (new_window cfg st data) (collected cfg st data) false
           (base_mean st) (base_std st) (queue st)).
Proof. intros Hacc Hlen Hdone Hnc. by_outcome. Qed.

Lemma handler_close (cfg : Config) (st : State) (data : list byte) (now : R) :
  accepted data -> (3 <= length (new_window cfg st data))%nat ->
  baseline_done st = false -> closing cfg st data now ->
  hrm_notification_handler cfg st data now =
  Py.Ok (mkState (new_window cfg st data) (collected cfg st data) true
           (arith_mean (collected cfg st data)) (floored_std (collected cfg st data))
           (queue st)).
Proof. intros Hacc Hlen Hdone Hc. by_outcome. Qed.

Lemma handler_emit (cfg : Config) (st : State) (data : list byte) (now : R) :
  accepted data -> (3 <= length (new_window cfg st data))%nat ->
  baseline_done st = true -> base_std st <> 0 -> Py.full (queue st) = false ->
  hrm_notification_handler cfg st data now =
  Py.Ok (mkState (new_window cfg st data) (baseline_rmssds st) true
           (base_mean st) (base_std st)
           (Py.mkQueue (Py.maxsize (queue st))
              (Py.items (queue st) ++ [new_z cfg st data]))).
Proof. intros Hacc Hlen Hdone Hstd Hfull. by_outcome. Qed.

(** *** Invariants of the stream *)

(** A closed baseline stays closed, with its mean and deviation. *)
Lemma handler_frozen (cfg : Config) (st st' : State) (data : list byte) (now : R) :
  baseline_done st = true ->
  hrm_notification_handler cfg st data now = Py.Ok st' ->
  baseline_done st' = true /\ base_mean st' = base_mean st /\
  base_std st' = base_std st /\ baseline_rmssds st' = baseline_rmssds st.
Proof.
  intros Hdone Hret.
  pose proof (handler_outcome cfg st data now) as Hout. rewrite Hret in Hout.
  inversion Hout; subst; cbn; auto; congruence.
Qed.

Lemma deliver_frozen (cfg : Config) (evs : list Event) :
  forall st st',
    baseline_done st = true -> deliver cfg st evs = Py.Ok st' ->
    baseline_done st' = true /\ base_mean st' = base_mean st /\
    base_std st' = base_std st.
Proof.
  induction evs as [| [data now] evs IH]; intros st st' Hdone Hrun; cbn in Hrun.
  - injection Hrun as <-. auto.
  - destruct (hrm_notification_handler cfg st data now) as [st1 | e] eqn:Hstep;
      cbn in Hrun; [| discriminate].
    destruct (handler_frozen cfg st st1 data now Hdone Hstep) as (Hd & Hm & Hs & _).
    destruct (IH st1 st' Hd Hrun) as (Hd' & Hm' & Hs').
    repeat split; congruence.
Qed.

Lemma init_inv : stream_inv init.
Proof.
  unfold stream_inv, init; cbn. split; [reflexivity | split]; [lra | discriminate].
Qed.

Lemma handler_inv (cfg : Config) (st st' : State) (data : list byte) (now : R) :
  stream_inv st ->
  hrm_notification_handler cfg st data now = Py.Ok st' -> stream_inv st'.
Proof.
  intros (Hq & Hstd & Hcnt) Hret.
  pose proof (handler_outcome cfg st data now) as Hout. rewrite Hret in Hout.
  inversion Hout as [ | | | ? ? ? Hclosing | | | ]; subst; unfold stream_inv; cbn;
    (split; [exact Hq | split]); auto; try discriminate.
  - apply floored_std_nonzero.
  - intros _. repeat split. apply Hclosing.
Qed.

Lemma deliver_inv (cfg : Config) (evs : list Event) :
  forall st st', stream_inv st -> deliver cfg st evs = Py.Ok st' -> stream_inv st'.
Proof.
  induction evs as [| [data now] evs IH]; intros st st' Hinv Hrun; cbn in Hrun.
  - injection Hrun as <-. exact Hinv.
  - destruct (hrm_notification_handler cfg st data now) as [st1 | e] eqn:Hstep;
      cbn in Hrun; [| discriminate].
    eapply IH; [eapply handler_inv; eassumption | exact Hrun].
Qed.

Lemma reachable_inv (cfg : Config) (st : State) : reachable cfg st -> stream_inv st.
Proof.
  intros [evs Hrun]. eapply deliver_inv; [apply init_inv | exact Hrun].
Qed.

(** The handler never raises on the stream. *)
Lemma deliver_returns (cfg : Config) (evs : list Event) :
  forall st, stream_inv st -> exists st', deliver cfg st evs = Py.Ok st'.
Proof.
  induction evs as [| [data now] evs IH]; intros st Hinv; cbn.
  - eexists; reflexivity.
  - destruct (handler_returns cfg st data now) as [st1 Hstep].
    { intros _. apply Hinv. }
    rewrite Hstep. cbn. apply IH. eapply handler_inv; eassumption.
Qed.

Lemma app_one_neq {A : Type} (l : list A) (a : A) : l <> l ++ [a].
Proof.
  intros H. apply (f_equal (@length A)) in H. rewrite length_app in H. cbn in H. lia.
Qed.

(** *** Claims about frames and calibration *)

(** C9: a frame shorter than 3 bytes, or whose flags byte lacks the
    interval-presence bit ([flags & 0x10]), is ignored: the handler
    returns without raising and the state is the one it was called in.
    Any other frame is parsed into [intervals_ms]: interval [k] is the
    little-endian unsigned 16-bit value at byte offset [off + 2k], with
    [off] 2, or 3 when [flags & 0x01] is set, counted in 1/1024 s (and
    kept in milliseconds); these values are what the handler appends to
    its window. *)
Theorem C9_frame_handling (cfg : Config) (st : State) (data : list byte) (now : R) :
  ((length data < 3)%nat \/ Z.land (flags_of data) 16 = 0%Z ->
     hrm_notification_handler cfg st data now = Py.Ok st) /\
  ((3 <= length data)%nat -> Z.land (flags_of data) 16 <> 0%Z ->
   (baseline_done st = true -> base_std st <> 0) ->
     exists st', hrm_notification_handler cfg st data now = Py.Ok st' /\
       (intervals_ms data = [] -> st' = st) /\
       (intervals_ms data <> [] ->
          rr_ms_window st' = keep_recent cfg (rr_ms_window st ++ intervals_ms data))) /\
  (length (intervals_ms data) = interval_count data /\
   forall k : nat, (k < interval_count data)%nat ->
     let off := if (Z.land (flags_of data) 1 =? 0)%Z then 2%nat else 3%nat in
     let raw := le_uint16 (nth (off + 2 * k) data x00) (nth (off + 2 * k + 1) data x00) in
     (0 <= raw < 65536)%Z /\ nth k (intervals_ms data) 0 = IZR raw / 1024 * 1000).
Proof.
  split; [| split].
  - intros Hbad. apply handler_ignored. intros (Hlen & Hpresent & _).
    destruct Hbad as [Hshort | Hflag]; [lia |].
    unfold intervals_present in Hpresent. rewrite Hflag in Hpresent. discriminate.
  - intros Hlen Hflag Hstd.
    destruct (handler_returns cfg st data now Hstd) as [st' Hret].
    exists st'. split; [exact Hret |].
    pose proof (handler_outcome cfg st data now) as Hout. rewrite Hret in Hout.
    split.
    + intros Hnil.
      inversion Hout as [ Hna | Hacc | Hacc | Hacc | Hacc | Hacc | ]; subst;
        try reflexivity; destruct Hacc as (_ & _ & Hne); contradiction.
    + intros Hne.
      inversion Hout as [ Hna | | | | | | ]; subst; try reflexivity.
      exfalso. apply Hna. repeat split; try assumption.
      unfold intervals_present. destruct (Z.eqb_spec (Z.land (flags_of data) 16) 0);
        [contradiction | reflexivity].
  - split.
    + unfold intervals_ms. rewrite length_map, length_seq. reflexivity.
    + intros k Hk off raw. split; [apply le_uint16_range |].
      unfold intervals_ms.
      rewrite (nth_indep _ 0 (interval_seconds data 0 * 1000))
        by (rewrite length_map, length_seq; exact Hk).
      rewrite (map_nth (fun k => interval_seconds data k * 1000)).
      rewrite seq_nth by exact Hk. reflexivity.
Qed.

Lemma C9_frame_handling_witness :
  ((length [x10; x3c] < 3)%nat \/ Z.land (flags_of [x10; x3c]) 16 = 0%Z) /\
  hrm_notification_handler (mkConfig 60 20 0) init [x10; x3c] 5 = Py.Ok init.
Proof.
  assert (H : (length [x10; x3c] < 3)%nat \/ Z.land (flags_of [x10; x3c]) 16 = 0%Z)
    by (left; cbn; lia).
  split; [exact H |].
  apply (proj1 (C9_frame_handling (mkConfig 60 20 0) init [x10; x3c] 5)). exact H.
Defined.

(** *** The concrete stream *)

Lemma fold_right_zeros (xs : list R) :
  Forall (eq 0) xs -> fold_right Rplus 0 xs = 0.
Proof.
  induction 1 as [| x xs Hx _ IH]; cbn; [reflexivity | lra].
Qed.

Lemma arith_mean_zeros (xs : list R) : Forall (eq 0) xs -> arith_mean xs = 0.
Proof.
  intros Hz. unfold arith_mean. rewrite fold_right_zeros by exact Hz. lra.
Qed.

Lemma successive_diffs_constant (x : R) (n : nat) :
  Forall (eq 0) (successive_diffs (repeat x n)).
Proof.
  induction n as [| [| n] IH]; try constructor.
  - lra.
  - exact IH.
Qed.

Lemma rmssd_constant (x : R) (n : nat) : rmssd (repeat x n) = 0.
Proof.
  unfold rmssd. rewrite arith_mean_zeros; [apply sqrt_0 |].
  pose proof (successive_diffs_constant x n) as Hz.
  induction Hz as [| d ds Hd _ IH]; constructor; [subst d; lra | exact IH].
Qed.

Lemma population_std_zeros (n : nat) : population_std (repeat 0 n) = 0.
Proof.
  unfold population_std. rewrite (arith_mean_zeros (repeat 0 n)).
  - rewrite arith_mean_zeros; [apply sqrt_0 |].
    induction n; constructor; [lra | assumption].
  - induction n; constructor; [reflexivity | assumption].
Qed.

Lemma floored_std_zeros (n : nat) : floored_std (repeat 0 n) = 0.01.
Proof.
  unfold floored_std. rewrite population_std_zeros.
  destruct (Req_dec_T 0 0); [reflexivity | contradiction].
Qed.

Lemma keep_recent_small (cfg : Config) (w : list R) :
  (Z.of_nat (length w) <= rr_window_size cfg)%Z -> keep_recent cfg w = w.
Proof.
  intros Hle. unfold keep_recent.
  destruct (Z.ltb_spec (rr_window_size cfg) (Z.of_nat (length w))); [lia | reflexivity].
Qed.

Lemma intervals_frame1 : intervals_ms Scenario.frame1 = [1000].
Proof.
  unfold intervals_ms. change (interval_count Scenario.frame1) with 1%nat.
  cbn [seq map]. unfold interval_seconds.
  match goal with
  | |- context [IZR ?z] => replace z with 1024%Z by reflexivity
  end.
  f_equal. lra.
Qed.

Lemma intervals_frame3 : intervals_ms Scenario.frame3 = repeat 1000 3.
Proof.
  unfold intervals_ms. change (interval_count Scenario.frame3) with 3%nat.
  cbn [seq map repeat]. unfold interval_seconds.
  repeat match goal with
  | |- context [IZR (le_uint16 ?a ?b)] =>
      replace (le_uint16 a b) with 1024%Z by reflexivity
  end.
  repeat f_equal; lra.
Qed.

Lemma accepted_frame1 : accepted Scenario.frame1.
Proof.
  repeat split; [cbn; lia | rewrite intervals_frame1; discriminate].
Qed.

Lemma accepted_frame3 : accepted Scenario.frame3.
Proof.
  repeat split; [cbn; lia | rewrite intervals_frame3; discriminate].
Qed.

(** A frame of 1000 ms intervals extends a window of 1000 ms intervals. *)
Lemma new_window_constant (st : State) (n : nat) :
  rr_ms_window st = repeat 1000 n -> (n + 1 <= 20)%nat ->
  new_window Scenario.cfg st Scenario.frame1 = repeat 1000 (n + 1).
Proof.
  intros Hw Hn. unfold new_window. rewrite intervals_frame1, Hw.
  change [1000] with (repeat 1000 1). rewrite <- repeat_app.
  apply keep_recent_small. rewrite repeat_length. cbn. lia.
Qed.

Lemma new_sample_constant (st : State) (n : nat) :
  rr_ms_window st = repeat 1000 n -> (n + 1 <= 20)%nat ->
  new_sample Scenario.cfg st Scenario.frame1 = 0.
Proof.
  intros Hw Hn. unfold new_sample.
  rewrite (new_window_constant st n Hw Hn), rmssd_constant. lra.
Qed.

Lemma new_window_frame3 :
  new_window Scenario.cfg init Scenario.frame3 = repeat 1000 3.
Proof.
  unfold new_window. rewrite intervals_frame3. cbn [init rr_ms_window app].
  apply keep_recent_small. rewrite repeat_length. cbn. lia.
Qed.

Lemma scenario_step1 :
  hrm_notification_handler Scenario.cfg init Scenario.frame3 1 =
  Py.Ok (mkState (repeat 1000 3) [0] false 0.0 1.0 Py.new_queue).
Proof.
  rewrite handler_collect.
  - unfold collected, new_sample. rewrite new_window_frame3, rmssd_constant.
    cbn [init baseline_rmssds base_mean base_std queue app].
    replace (0 / 1000) with 0 by lra. reflexivity.
  - exact accepted_frame3.
  - rewrite new_window_frame3, repeat_length. lia.
  - reflexivity.
  - intros (_ & Hcnt). cbn in Hcnt. lia.
Qed.

Lemma scenario_step2 :
  hrm_notification_handler Scenario.cfg
    (mkState (repeat 1000 3) [0] false 0.0 1.0 Py.new_queue) Scenario.frame1 2 =
  Py.Ok (mkState (repeat 1000 4) [0; 0] false 0.0 1.0 Py.new_queue).
Proof.
  rewrite handler_collect.
  - unfold collected.
    rewrite (new_window_constant _ 3), (new_sample_constant _ 3)
      by (reflexivity || lia).
    reflexivity.
  - exact accepted_frame1.
  - rewrite (new_window_constant _ 3), repeat_length by (reflexivity || lia). lia.
  - reflexivity.
  - intros (_ & Hcnt). cbn in Hcnt. lia.
Qed.

Lemma scenario_step3 :
  hrm_notification_handler Scenario.cfg
    (mkState (repeat 1000 4) [0; 0] false 0.0 1.0 Py.new_queue) Scenario.frame1 61 =
  Py.Ok Scenario.closed_state.
Proof.
  rewrite handler_close.
  - unfold collected.
    rewrite (new_window_constant _ 4), (new_sample_constant _ 4)
      by (reflexivity || lia).
    cbn [baseline_rmssds app queue].
    change [0; 0; 0] with (repeat 0 3).
    rewrite arith_mean_zeros, floored_std_zeros; [reflexivity |].
    repeat constructor.
  - exact accepted_frame1.
  - rewrite (new_window_constant _ 4), repeat_length by (reflexivity || lia). lia.
  - reflexivity.
  - split.
    + unfold elapsed, Scenario.cfg; cbn [baseline_start baseline_duration_s]. lra.
    + unfold collected. cbn [baseline_rmssds]. rewrite length_app. cbn. lia.
Qed.

Lemma scenario_step4 :
  hrm_notification_handler Scenario.cfg Scenario.closed_state Scenario.frame1 62 =
  Py.Ok Scenario.undrained_state.
Proof.
  rewrite handler_emit.
  - unfold new_z.
    rewrite (new_window_constant _ 5), (new_sample_constant _ 5)
      by (reflexivity || lia).
    cbn [Scenario.closed_state baseline_rmssds base_mean base_std queue
         Py.maxsize Py.items Py.new_queue app].
    replace ((0 - 0) / 0.01) with 0 by lra. reflexivity.
  - exact accepted_frame1.
  - rewrite (new_window_constant _ 5), repeat_length by (reflexivity || lia). lia.
  - reflexivity.
  - cbn. lra.
  - reflexivity.
Qed.

Lemma scenario_step5 :
  hrm_notification_handler Scenario.cfg Scenario.undrained_state Scenario.frame1 63 =
  Py.Ok Scenario.overfull_state.
Proof.
  rewrite handler_emit.
  - unfold new_z.
    rewrite (new_window_constant _ 6), (new_sample_constant _ 6)
      by (reflexivity || lia).
    cbn [Scenario.undrained_state baseline_rmssds base_mean base_std queue
         Py.maxsize Py.items app].
    replace ((0 - 0) / 0.01) with 0 by lra. reflexivity.
  - exact accepted_frame1.
  - rewrite (new_window_constant _ 6), repeat_length by (reflexivity || lia). lia.
  - reflexivity.
  - cbn. lra.
  - reflexivity.
Qed.

Lemma scenario_calibration :
  deliver Scenario.cfg init Scenario.calibration = Py.Ok Scenario.closed_state.
Proof.
  unfold Scenario.calibration. cbn [deliver].
  rewrite scenario_step1. cbn [Py.bind].
  rewrite scenario_step2. cbn [Py.bind].
  rewrite scenario_step3. reflexivity.
Qed.

Lemma deliver_app (cfg : Config) (evs1 evs2 : list Event) :
  forall st st1,
    deliver cfg st evs1 = Py.Ok st1 ->
    deliver cfg st (evs1 ++ evs2) = deliver cfg st1 evs2.
Proof.
  induction evs1 as [| [data now] evs1 IH]; intros st st1 Hrun; cbn in *.
  - injection Hrun as <-. reflexivity.
  - destruct (hrm_notification_handler cfg st data now) as [st' | e];
      cbn in *; [apply IH; exact Hrun | discriminate].
Qed.

Lemma scenario_first_emission :
  deliver Scenario.cfg init Scenario.first_emission = Py.Ok Scenario.undrained_state.
Proof.
  unfold Scenario.first_emission.
  rewrite (deliver_app _ _ _ _ _ scenario_calibration). cbn [deliver].
  rewrite scenario_step4. reflexivity.
Qed.

Lemma undrained_reachable : reachable Scenario.cfg Scenario.undrained_state.
Proof. exists Scenario.first_emission. exact scenario_first_emission. Qed.

(** On the stream, after the baseline has closed, a frame that yields a
    sample always gets its z-score appended to the queue. *)
Lemma emit_on_stream (cfg : Config) (st : State) (data : list byte) (now : R) :
  reachable cfg st -> baseline_done st = true ->
  accepted data -> (3 <= length (new_window cfg st data))%nat ->
  exists st', hrm_notification_handler cfg st data now = Py.Ok st' /\
    Py.items (queue st') =
    Py.items (queue st) ++
      [(rmssd (new_window cfg st data) / 1000 - base_mean st) / base_std st].
Proof.
  intros Hreach Hdone Hacc Hlen.
  destruct (reachable_inv cfg st Hreach) as (Hmax & Hstd & _).
  eexists. split.
  - apply handler_emit; try assumption.
    unfold Py.full. rewrite Hmax. reflexivity.
  - reflexivity.
Qed.

(** *** Claims about the deviation floor and the queue *)

(** C5: when the baseline closes, the mean put in use is the arithmetic
    mean of the collected samples and the deviation put in use is their
    population standard deviation if that is non-zero and 0.01 if it is
    zero.  On the stream the deviation in use is therefore never zero,
    after closing it is that floored deviation, and no notification
    raises, so the z-score division never divides by zero.  For five
    samples of 0.05 s the mean is 0.05, the population deviation 0 and the
    deviation in use 0.01. *)
Theorem C5_std_never_zero (cfg : Config) :
  (forall (st st' : State) (data : list byte) (now : R),
     baseline_done st = false ->
     hrm_notification_handler cfg st data now = Py.Ok st' ->
     baseline_done st' = true ->
     base_mean st' = arith_mean (baseline_rmssds st') /\
     (population_std (baseline_rmssds st') <> 0 ->
        base_std st' = population_std (baseline_rmssds st')) /\
     (population_std (baseline_rmssds st') = 0 -> base_std st' = 0.01)) /\
  (forall st : State, reachable cfg st ->
     base_std st <> 0 /\
     (baseline_done st = true -> base_std st = floored_std (baseline_rmssds st)) /\
     forall (data : list byte) (now : R),
       exists st', hrm_notification_handler cfg st data now = Py.Ok st') /\
  (arith_mean (repeat 0.05 5) = 0.05 /\
   population_std (repeat 0.05 5) = 0 /\
   floored_std (repeat 0.05 5) = 0.01).
Proof.
  split; [| split].
  - intros st st' data now Hopen Hret Hclosed.
    pose proof (handler_outcome cfg st data now) as Hout. rewrite Hret in Hout.
    inversion Hout; subst; cbn in *; try congruence.
    split; [reflexivity |]. unfold floored_std, std_floor.
    destruct (Req_dec_T (population_std (collected cfg st data)) 0); split;
      intros; try reflexivity; contradiction.
  - intros st Hreach.
    destruct (reachable_inv cfg st Hreach) as (Hmax & Hstd & Hclosed).
    split; [exact Hstd |]. split; [intros Hd; apply Hclosed, Hd |].
    intros data now. apply handler_returns. intros _. exact Hstd.
  - assert (Hmean : arith_mean (repeat 0.05 5) = 0.05).
    { unfold arith_mean. cbn. lra. }
    assert (Hstd : population_std (repeat 0.05 5) = 0).
    { unfold population_std. rewrite Hmean. unfold arith_mean. cbn.
      replace ((0.05 - 0.05) * (0.05 - 0.05)) with 0 by lra.
      replace ((0 + (0 + (0 + (0 + (0 + 0))))) / (1 + 1 + 1 + 1 + 1)) with 0 by lra.
      apply sqrt_0. }
    repeat split; [exact Hmean | exact Hstd |].
    unfold floored_std. rewrite Hstd.
    destruct (Req_dec_T 0 0); [reflexivity | contradiction].
Qed.

Lemma C5_std_never_zero_witness :
  reachable Scenario.cfg Scenario.undrained_state /\
  base_std Scenario.undrained_state <> 0.
Proof.
  split; [exact undrained_reachable |].
  apply (proj1 (proj2 (C5_std_never_zero Scenario.cfg)) _ undrained_reachable).
Defined.

(** C2, on the code: the queue is created unbounded, so a z-score pushed
    while an earlier one is still waiting is appended, not dropped.  After
    the notifications of [first_emission] one z-score waits in the queue;
    the next notification makes it two. *)
Theorem C2_undrained_push_is_queued :
  deliver Scenario.cfg init Scenario.first_emission = Py.Ok Scenario.undrained_state /\
  Py.items (queue Scenario.undrained_state) = [0] /\
  hrm_notification_handler Scenario.cfg Scenario.undrained_state Scenario.frame1 63 =
    Py.Ok Scenario.overfull_state /\
  Py.items (queue Scenario.overfull_state) = [0; 0] /\
  (forall (cfg : Config) (st : State) (data : list byte) (now : R),
     reachable cfg st -> baseline_done st = true ->
     accepted data -> (3 <= length (new_window cfg st data))%nat ->
     exists st', hrm_notification_handler cfg st data now = Py.Ok st' /\
       length (Py.items (queue st')) = S (length (Py.items (queue st)))).
Proof.
  split; [exact scenario_first_emission |].
  split; [reflexivity |].
  split; [exact scenario_step5 |].
  split; [reflexivity |].
  intros cfg st data now Hreach Hdone Hacc Hlen.
  destruct (emit_on_stream cfg st data now Hreach Hdone Hacc Hlen) as (st' & Hret & Hq).
  exists st'. split; [exact Hret |].
  rewrite Hq, length_app. cbn. lia.
Qed.

Lemma C2_undrained_push_is_queued_witness :
  exists st',
    hrm_notification_handler Scenario.cfg Scenario.undrained_state Scenario.frame1 63
    = Py.Ok st' /\
    length (Py.items (queue st')) = S (length (Py.items (queue Scenario.undrained_state))).
Proof.
  apply (proj2 (proj2 (proj2 (proj2 C2_undrained_push_is_queued)))).
  - exact undrained_reachable.
  - reflexivity.
  - exact accepted_frame1.
  - rewrite (new_window_constant _ 6), repeat_length by (reflexivity || lia). lia.
Defined.

(** *** The calibrator *)

Lemma keep_recent_is_recent (cfg : Config) (w0 : list R) :
  (0 < rr_window_size cfg)%Z ->
  keep_recent cfg w0 = CalibrationSpec.recent (rr_window_size cfg) w0.
Proof.
  intros Hpos. unfold keep_recent, CalibrationSpec.recent, Py.slice_from.
  destruct (Z.ltb_spec (rr_window_size cfg) (Z.of_nat (length w0))) as [Hlong | Hshort].
  - destruct (Z.ltb_spec (- rr_window_size cfg) 0); [| lia].
    f_equal. lia.
  - replace (length w0 - Z.to_nat (rr_window_size cfg))%nat with 0%nat by lia.
    reflexivity.
Qed.

Lemma new_window_after (cfg : Config) (st : State) (data : list byte) :
  (0 < rr_window_size cfg)%Z ->
  new_window cfg st data = CalibrationSpec.window_after cfg st data.
Proof.
  intros Hpos. unfold new_window, CalibrationSpec.window_after.
  apply keep_recent_is_recent. exact Hpos.
Qed.

Lemma yields_sample_accepted (cfg : Config) (st : State) (data : list byte) :
  (0 < rr_window_size cfg)%Z ->
  (CalibrationSpec.yields_sample cfg st data <->
   accepted data /\ (3 <= length (new_window cfg st data))%nat).
Proof.
  intros Hpos. unfold CalibrationSpec.yields_sample, accepted, intervals_present.
  rewrite (new_window_after cfg st data Hpos).
  destruct (Z.eqb_spec (Z.land (flags_of data) 16) 0) as [Hz | Hnz]; cbn [negb].
  - split; [intros (_ & H & _); contradiction | intros ((_ & H & _) & _); discriminate].
  - tauto.
Qed.

(** C4: while the baseline is open, a notification whose frame yields an
    RMSSD sample appends that sample to the baseline samples, and closes
    the baseline exactly when the elapsed time has reached the configured
    duration and the count, this sample included, is at least 3; a
    notification that yields no sample collects nothing and leaves the
    baseline open.  So the baseline never closes on fewer than 3 samples,
    however late, and closes on the first sample at which both conditions
    hold.  On the stream a closed baseline rests on at least 3 samples,
    and once closed it stays closed with the same mean and deviation
    whatever notifications follow. *)
Theorem C4_baseline_closes_once (cfg : Config) (st : State) :
  (baseline_done st = false -> (0 < rr_window_size cfg)%Z ->
   forall (data : list byte) (now : R),
   exists st', hrm_notification_handler cfg st data now = Py.Ok st' /\
     (CalibrationSpec.yields_sample cfg st data ->
        baseline_rmssds st' =
          baseline_rmssds st ++ [CalibrationSpec.sample_after cfg st data] /\
        (baseline_done st' = true <->
           now - baseline_start cfg >= baseline_duration_s cfg /\
           (3 <= length (baseline_rmssds st'))%nat)) /\
     (~ CalibrationSpec.yields_sample cfg st data ->
        baseline_rmssds st' = baseline_rmssds st /\ baseline_done st' = false)) /\
  (baseline_done st = false ->
   forall (data : list byte) (now : R),
   exists st', hrm_notification_handler cfg st data now = Py.Ok st' /\
     (baseline_done st' = true <->
        (exists r, baseline_rmssds st' = baseline_rmssds st ++ [r]) /\
        now - baseline_start cfg >= baseline_duration_s cfg /\
        (3 <= length (baseline_rmssds st'))%nat)) /\
  (reachable cfg st -> baseline_done st = true ->
     (3 <= length (baseline_rmssds st))%nat) /\
  (baseline_done st = true ->
   forall (evs : list Event) (st' : State),
     deliver cfg st evs = Py.Ok st' ->
     baseline_done st' = true /\ base_mean st' = base_mean st /\
     base_std st' = base_std st).
Proof.
  split; [| split; [| split]].
  - intros Hopen Hpos data now.
    destruct (handler_returns cfg st data now) as [st' Hret]; [congruence |].
    exists st'. split; [exact Hret |].
    rewrite (yields_sample_accepted cfg st data Hpos).
    unfold CalibrationSpec.sample_after.
    rewrite <- (new_window_after cfg st data Hpos).
    fold (new_sample cfg st data). fold (collected cfg st data).
    pose proof (handler_outcome cfg st data now) as Hout. rewrite Hret in Hout.
    inversion Hout as [ Hna | Hacc Hfew | Hacc Hlen ? Hnc | Hacc Hlen ? Hc | | | ];
      subst; cbn [baseline_rmssds baseline_done]; try congruence.
    + split; [intros [Hacc _]; contradiction | intros _; split; [reflexivity | exact Hopen]].
    + split; [intros [_ Hlen]; lia | intros _; split; [reflexivity | exact Hopen]].
    + split; [| intros Hno; exfalso; apply Hno; split; assumption].
      intros _. split; [reflexivity |].
      split; [discriminate |]. intros Hboth. exfalso. apply Hnc. exact Hboth.
    + split; [| intros Hno; exfalso; apply Hno; split; assumption].
      intros _. split; [reflexivity |].
      split; [intros _; exact Hc | reflexivity].
  - intros Hopen data now.
    destruct (handler_returns cfg st data now) as [st' Hret]; [congruence |].
    exists st'. split; [exact Hret |].
    pose proof (handler_outcome cfg st data now) as Hout. rewrite Hret in Hout.
    inversion Hout as [ | | ? ? ? Hnc | ? ? ? Hc | | | ]; subst; cbn;
      try congruence.
    + split; [congruence |]. intros ([r Hr] & _). destruct (app_one_neq _ _ Hr).
    + split; [congruence |]. intros ([r Hr] & _). destruct (app_one_neq _ _ Hr).
    + split; [discriminate |]. intros (_ & Hel & Hcnt).
      exfalso. apply Hnc. split; assumption.
    + split; [| reflexivity]. intros _. destruct Hc as (Hel & Hcnt).
      split; [eexists; reflexivity | split; assumption].
  - intros Hreach Hdone. apply (reachable_inv cfg st Hreach). exact Hdone.
  - intros Hdone evs st'. apply deliver_frozen. exact Hdone.
Qed.

Lemma window_after_frame1 :
  CalibrationSpec.window_after Scenario.cfg CalibrationSpec.collecting_state
    Scenario.frame1 = repeat 1000 5.
Proof.
  unfold CalibrationSpec.window_after. rewrite intervals_frame1. reflexivity.
Qed.

Lemma collecting_yields_sample :
  CalibrationSpec.yields_sample Scenario.cfg CalibrationSpec.collecting_state
    Scenario.frame1.
Proof.
  unfold CalibrationSpec.yields_sample. rewrite window_after_frame1, intervals_frame1.
  repeat split; try (cbn; lia); discriminate.
Qed.

Lemma C4_baseline_closes_once_witness :
  baseline_done CalibrationSpec.collecting_state = false /\
  (0 < rr_window_size Scenario.cfg)%Z /\
  CalibrationSpec.yields_sample Scenario.cfg CalibrationSpec.collecting_state
    Scenario.frame1 /\
  exists st',
    hrm_notification_handler Scenario.cfg CalibrationSpec.collecting_state
      Scenario.frame1 61 = Py.Ok st' /\
    baseline_rmssds st' =
      [0; 0] ++ [CalibrationSpec.sample_after Scenario.cfg
                   CalibrationSpec.collecting_state Scenario.frame1] /\
    baseline_done st' = true.
Proof.
  assert (Hopen : baseline_done CalibrationSpec.collecting_state = false) by reflexivity.
  assert (Hpos : (0 < rr_window_size Scenario.cfg)%Z) by (cbn; lia).
  split; [exact Hopen |]. split; [exact Hpos |].
  split; [exact collecting_yields_sample |].
  destruct (proj1 (C4_baseline_closes_once Scenario.cfg CalibrationSpec.collecting_state)
              Hopen Hpos Scenario.frame1 61) as (st' & Hret & Hyes & _).
  destruct (Hyes collecting_yields_sample) as [Hbl Hiff].
  exists st'. split; [exact Hret |]. split; [exact Hbl |].
  apply Hiff. split.
  - unfold Scenario.cfg; cbn [baseline_start baseline_duration_s]. lra.
  - rewrite Hbl, length_app. cbn. lia.
Defined.

End HrvProofs.

(** ** The session loop *)

Module SessionProofs.
Import Controller PolarRun.

Lemma logged_current (cp : AudioParams) (t z : R) :
  logged (mkSample t z (tempo cp) (pitch cp) (volume cp)) = cp.
Proof. destruct cp; reflexivity. Qed.

Lemma params_after_snoc (p : AudioParams) (ss : list Sample) (s : Sample) :
  params_after p (ss ++ [s]) = update_after s.
Proof. unfold params_after. rewrite fold_left_app. reflexivity. Qed.

Lemma lagging_snoc (ss : list Sample) (s : Sample) :
  forall p, lagging p ss -> logged s = params_after p ss -> lagging p (ss ++ [s]).
Proof.
  induction ss as [| s0 ss IH]; intros p Hlag Hs; cbn in *.
  - split; [exact Hs | exact I].
  - destruct Hlag as [H0 Hrest]. split; [exact H0 |].
    apply IH; [exact Hrest | exact Hs].
Qed.

Lemma lagging_head (p : AudioParams) (ss : list Sample) (s : Sample) :
  lagging p ss -> nth_error ss 0 = Some s -> logged s = p.
Proof.
  destruct ss as [| s0 ss]; cbn; [discriminate |].
  intros [H0 _] [= <-]. exact H0.
Qed.

Lemma lagging_next (ss : list Sample) :
  forall (p : AudioParams) (k : nat) (s s' : Sample),
    lagging p ss -> nth_error ss k = Some s -> nth_error ss (S k) = Some s' ->
    logged s' = update_after s.
Proof.
  induction ss as [| s0 ss IH]; intros p k s s' Hlag Hk HSk.
  - destruct k; discriminate.
  - destruct Hlag as [_ Hrest]. destruct k as [| k].
    + injection Hk as <-. cbn in HSk. eapply lagging_head; eassumption.
    + cbn in Hk, HSk. eapply IH; eassumption.
Qed.

Lemma loop_body_continues (l : Loop) (u : Turn) :
  turn_finished u = false ->
  let t0' := match t0 l with None => turn_clock0 u | Some t => t end in
  let t_rel := turn_clock u - t0' in
  let cp := current_params l in
  loop_body l u =
  (mkLoop (Some t0')
     (samples l ++ [mkSample t_rel (turn_z u) (tempo cp) (pitch cp) (volume cp)])
     (update_audio_params cp (Some (turn_z u)) None (Py.leb t_rel BASELINE_SECONDS) false),
   true).
Proof.
  intros Hgo. unfold loop_body. rewrite Hgo. reflexivity.
Qed.

Lemma loop_body_inv (l : Loop) (u : Turn) :
  lag_inv l -> lag_inv (fst (loop_body l u)).
Proof.
  intros [Hlag Hcur]. destruct (turn_finished u) eqn:Hfin.
  - unfold loop_body. rewrite Hfin. split; assumption.
  - rewrite loop_body_continues by exact Hfin.
    unfold lag_inv. cbn [fst samples current_params].
    split.
    + apply lagging_snoc; [exact Hlag |]. rewrite logged_current. exact Hcur.
    + rewrite params_after_snoc. unfold update_after.
      rewrite logged_current. reflexivity.
Qed.

Lemma stream_loop_inv (us : list Turn) :
  forall l, lag_inv l -> lag_inv (stream_loop l us).
Proof.
  induction us as [| u us IH]; intros l Hinv; cbn [stream_loop]; [exact Hinv |].
  pose proof (loop_body_inv l u Hinv) as Hstep.
  destruct (loop_body l u) as [l' go]. cbn [fst] in Hstep.
  destruct go; [apply IH; exact Hstep | exact Hstep].
Qed.

Lemma run_session_loops_inv (live : list Turn) (simulated : option (list Turn)) :
  lag_inv (run_session_loops live simulated).
Proof.
  unfold run_session_loops.
  assert (Hlive : lag_inv (stream_loop session_start live)).
  { apply stream_loop_inv. split; [exact I | reflexivity]. }
  destruct simulated as [us |]; [| exact Hlive].
  apply stream_loop_inv. exact Hlive.
Qed.

(** C10: in the session loops the sample of a tick is appended, with the
    current parameters, before the controller runs on that tick's
    z-score.  So the first sample logs the default parameters, every later
    sample logs the output of the controller update of the tick before
    (made from that tick's logged parameters, z-score and baseline flag),
    and the parameters in force at the end are one update ahead of the
    last sample. *)
Theorem C10_logged_params_lag (live : list Turn) (simulated : option (list Turn)) :
  let l := run_session_loops live simulated in
  (forall s : Sample, nth_error (samples l) 0 = Some s -> logged s = default_params) /\
  (forall (k : nat) (s s' : Sample),
     nth_error (samples l) k = Some s -> nth_error (samples l) (S k) = Some s' ->
     logged s' =
     update_audio_params (logged s) (Some (s_z s)) None
       (Py.leb (s_t s) BASELINE_SECONDS) false) /\
  current_params l = params_after default_params (samples l) /\
  (forall (l0 : Loop) (u : Turn), turn_finished u = false ->
     let cp := current_params l0 in
     exists t_rel : R,
       samples (fst (loop_body l0 u)) =
         samples l0 ++ [mkSample t_rel (turn_z u) (tempo cp) (pitch cp) (volume cp)] /\
       current_params (fst (loop_body l0 u)) =
         update_audio_params cp (Some (turn_z u)) None
           (Py.leb t_rel BASELINE_SECONDS) false).
Proof.
  intros l. destruct (run_session_loops_inv live simulated) as [Hlag Hcur].
  fold l in Hlag, Hcur.
  split; [| split; [| split]].
  - intros s Hs. eapply lagging_head; eassumption.
  - intros k s s' Hk HSk. eapply lagging_next; eassumption.
  - exact Hcur.
  - intros l0 u Hgo cp. eexists.
    rewrite loop_body_continues by exact Hgo. cbn [fst samples current_params].
    split; reflexivity.
Qed.

Lemma C10_logged_params_lag_witness :
  let live := [mkTurn (-1.0) 100 false 100; mkTurn 0.5 0 false 161] in
  let first := mkSample (100 - 100) (-1.0) 1.0 (-2.0) 60.0 in
  nth_error (samples (run_session_loops live None)) 0 = Some first /\
  logged first = default_params.
Proof.
  intros live first.
  assert (H : nth_error (samples (run_session_loops live None)) 0 = Some first)
    by reflexivity.
  split; [exact H |].
  apply (proj1 (C10_logged_params_lag live None) first H).
Defined.

End SessionProofs.

(** ** The session summary *)

Module SummaryProofs.
Import SummarySpec PyProofs.

Lemma leb_false (a b : R) : Py.leb a b = false <-> b < a.
Proof.
  unfold Py.leb. destruct (Rle_dec a b); split; intros; try easy; lra.
Qed.

Lemma geb_false (a b : R) : Py.geb a b = false <-> a < b.
Proof.
  unfold Py.geb. destruct (Rge_dec a b); split; intros; try easy; lra.
Qed.

Lemma last_default {A : Type} (l : list A) (d d' : A) :
  l <> [] -> last l d = last l d'.
Proof.
  induction l as [| a [| b l] IH]; intros Hne; [contradiction | reflexivity |].
  change (last (b :: l) d = last (b :: l) d'). apply IH. discriminate.
Qed.

Lemma last_times_and_z (ss : list PolarRun.Sample) (d : PolarRun.Sample) :
  ss <> [] ->
  PolarRun.s_t (last ss d) = fst (last (PolarRun.times_and_z ss) (0, 0)).
Proof.
  induction ss as [| a [| b ss] IH]; intros Hne; [contradiction | reflexivity |].
  change (PolarRun.s_t (last (b :: ss) d) =
          fst (last (PolarRun.times_and_z (b :: ss)) (0, 0))).
  apply IH. discriminate.
Qed.

Lemma filter_times_and_z (f : R -> bool) (ss : list PolarRun.Sample) :
  map PolarRun.s_z (filter (fun s => f (PolarRun.s_t s)) ss) =
  map snd (filter (fun p => f (fst p)) (PolarRun.times_and_z ss)).
Proof.
  induction ss as [| s ss IH]; [reflexivity |].
  cbn [filter PolarRun.times_and_z map fst]. fold (PolarRun.times_and_z ss).
  destruct (f (PolarRun.s_t s)); cbn [map snd]; rewrite IH; reflexivity.
Qed.

Lemma post_start_from0 (x : R) : Py.max2 0.0 x = Rmax 0 x.
Proof. rewrite max2_Rmax. f_equal. lra. Qed.

(** The mean [sum(vals) / len(vals)] of a non-empty list. *)
Lemma mean_div_ok (vals : list R) :
  vals <> [] ->
  Py.div (Py.sum vals) (Py.len vals) = Py.Ok (HrvSpec.arith_mean vals).
Proof.
  intros Hne. pose proof (len_pos vals Hne).
  rewrite div_ok by lra. rewrite sum_fold_right. reflexivity.
Qed.

Lemma mean_div_empty : Py.div (Py.sum []) (Py.len []) = Py.Raise Py.ZeroDivisionError.
Proof. apply div_zero. Qed.

(** [polar_run.compute_pre_post] in terms of the two windows. *)
Lemma polar_compute_windows (samples : list PolarRun.Sample) :
  samples <> [] ->
  let tz := PolarRun.times_and_z samples in
  let pre := pre_window PolarRun.PRE_WINDOW_SECONDS tz in
  let post := post_window_from0 PolarRun.POST_WINDOW_SECONDS tz in
  PolarRun.compute_pre_post samples =
  (pre_mean <- Py.div (Py.sum pre) (Py.len pre) ;;
   post_mean <- Py.div (Py.sum post) (Py.len post) ;;
   Py.Ok (mkSummary pre_mean post_mean (post_mean - pre_mean)
            (fst (last tz (0, 0))) (length pre) (length post))).
Proof.
  intros Hne tz pre post. destruct samples as [| s0 rest]; [contradiction |].
  unfold PolarRun.compute_pre_post.
  rewrite post_start_from0.
  rewrite (filter_times_and_z (fun t => Py.leb t PolarRun.PRE_WINDOW_SECONDS)).
  rewrite (last_times_and_z (s0 :: rest) s0 Hne).
  rewrite (filter_times_and_z
             (fun t => Py.geb t (Rmax 0 (fst (last (PolarRun.times_and_z (s0 :: rest)) (0, 0))
                                          - PolarRun.POST_WINDOW_SECONDS)))).
  reflexivity.
Qed.

Lemma polar_summarises (samples : list PolarRun.Sample) :
  summarises PolarRun.PRE_WINDOW_SECONDS PolarRun.POST_WINDOW_SECONDS
    (PolarRun.times_and_z samples) (PolarRun.compute_pre_post samples).
Proof.
  unfold summarises. cbv zeta. intros Hpre Hpost.
  assert (Hne : samples <> []).
  { intros ->. apply Hpre. reflexivity. }
  rewrite (polar_compute_windows samples Hne). cbv zeta.
  set (pre := pre_window _ _) in *. set (post := post_window_from0 _ _) in *.
  rewrite (mean_div_ok pre Hpre). cbn [Py.bind].
  rewrite (mean_div_ok post Hpost). cbn [Py.bind].
  eexists. split; [reflexivity |]. cbn. repeat split; reflexivity.
Qed.

(** [session_stress_csv.compute_pre_post] in terms of the two windows. *)
Lemma csv_compute_windows (tz : list SessionStressCsv.Sample) :
  tz <> [] ->
  let pre := pre_window SessionStressCsv.BASELINE_SECONDS tz in
  let post := post_window_from0 SessionStressCsv.POST_WINDOW_SECONDS tz in
  SessionStressCsv.compute_pre_post tz =
  match pre with
  | [] =>
      Py.Raise (Py.ValueError
        "No pre-window samples collected. Increase BASELINE_SECONDS or run longer."%string)
  | _ =>
      match post with
      | [] =>
          Py.Raise (Py.ValueError
            "No post-window samples collected. Increase POST_WINDOW_SECONDS or run longer."%string)
      | _ =>
          pre_mean <- Py.div (Py.sum pre) (Py.len pre) ;;
          post_mean <- Py.div (Py.sum post) (Py.len post) ;;
          Py.Ok (mkSummary pre_mean post_mean (post_mean - pre_mean)
                   (fst (last tz (0, 0))) (length pre) (length post))
      end
  end.
Proof.
  intros Hne pre post. destruct tz as [| s0 rest]; [contradiction |].
  unfold SessionStressCsv.compute_pre_post.
  rewrite post_start_from0.
  rewrite (last_default (s0 :: rest) s0 (0, 0) Hne).
  reflexivity.
Qed.

Lemma csv_summarises (tz : list SessionStressCsv.Sample) :
  summarises SessionStressCsv.BASELINE_SECONDS SessionStressCsv.POST_WINDOW_SECONDS
    tz (SessionStressCsv.compute_pre_post tz).
Proof.
  unfold summarises. cbv zeta. intros Hpre Hpost.
  assert (Hne : tz <> []).
  { intros ->. apply Hpre. reflexivity. }
  rewrite (csv_compute_windows tz Hne). cbv zeta.
  set (pre := pre_window _ _) in *. set (post := post_window_from0 _ _) in *.
  destruct pre as [| a pre'] eqn:Epre; [contradiction |].
  destruct post as [| b post'] eqn:Epost; [contradiction |].
  rewrite (mean_div_ok (a :: pre') Hpre). cbn [Py.bind].
  rewrite (mean_div_ok (b :: post') Hpost). cbn [Py.bind].
  eexists. split; [reflexivity |]. cbn. repeat split; reflexivity.
Qed.

Lemma csv_insufficient (tz : list SessionStressCsv.Sample) :
  pre_window SessionStressCsv.BASELINE_SECONDS tz = [] \/
  post_window_from0 SessionStressCsv.POST_WINDOW_SECONDS tz = [] ->
  insufficient_data (SessionStressCsv.compute_pre_post tz).
Proof.
  intros Hempty. destruct tz as [| s0 rest] eqn:Etz; [exact I |].
  rewrite csv_compute_windows by discriminate. cbv zeta.
  destruct Hempty as [-> | Hpost]; [exact I |].
  rewrite Hpost.
  destruct (pre_window _ _); exact I.
Qed.

(** With no negative times the code's post window is the claimed one. *)
Lemma post_window_nonneg (post_s : R) (tz : list (R * R)) :
  Forall (fun s => 0 <= fst s) tz ->
  post_window_from0 post_s tz = post_window post_s tz.
Proof.
  intros Hnn. unfold post_window_from0, post_window. cbv zeta. f_equal.
  apply filter_ext_in. intros s Hs.
  rewrite Forall_forall in Hnn. specialize (Hnn s Hs).
  set (x := fst (last tz (0, 0)) - post_s).
  unfold Py.geb, Rmax.
  destruct (Rle_dec 0 x); destruct (Rge_dec (fst s) _); destruct (Rge_dec (fst s) x);
    try reflexivity; lra.
Qed.

(** *** The two concrete sample lists *)

Ltac decide_cmp :=
  repeat first
    [ rewrite (proj2 (leb_true _ _)) by lra
    | rewrite (proj2 (leb_false _ _)) by lra
    | rewrite (proj2 (geb_true _ _)) by lra
    | rewrite (proj2 (geb_false _ _)) by lra ].

Lemma early_pre :
  pre_window PolarRun.PRE_WINDOW_SECONDS (PolarRun.times_and_z early_samples) = [1; 3].
Proof.
  unfold pre_window, early_samples, PolarRun.PRE_WINDOW_SECONDS.
  cbn [PolarRun.times_and_z map filter fst snd PolarRun.s_t PolarRun.s_z].
  decide_cmp. reflexivity.
Qed.

Lemma early_post_code :
  post_window_from0 PolarRun.POST_WINDOW_SECONDS (PolarRun.times_and_z early_samples)
  = [3].
Proof.
  unfold post_window_from0, early_samples, PolarRun.POST_WINDOW_SECONDS.
  cbn [PolarRun.times_and_z map filter fst snd last PolarRun.s_t PolarRun.s_z].
  replace (Rmax 0 (10 - 60)) with 0 by (unfold Rmax; destruct (Rle_dec 0 (10 - 60)); lra).
  decide_cmp. reflexivity.
Qed.

Lemma late_pre :
  pre_window PolarRun.PRE_WINDOW_SECONDS (PolarRun.times_and_z late_samples) = [].
Proof.
  unfold pre_window, late_samples, PolarRun.PRE_WINDOW_SECONDS.
  cbn [PolarRun.times_and_z map filter fst snd PolarRun.s_t PolarRun.s_z].
  decide_cmp. reflexivity.
Qed.

Lemma late_raises :
  PolarRun.compute_pre_post late_samples = Py.Raise Py.ZeroDivisionError.
Proof.
  rewrite polar_compute_windows by discriminate. cbv zeta.
  rewrite late_pre, mean_div_empty. reflexivity.
Qed.

(** *** Claims about the summary *)

Lemma csv_as_claimed (tz : list SessionStressCsv.Sample) :
  Forall (fun s => 0 <= fst s) tz ->
  as_claimed SessionStressCsv.BASELINE_SECONDS SessionStressCsv.POST_WINDOW_SECONDS
    tz (SessionStressCsv.compute_pre_post tz).
Proof.
  intros Hnn. unfold as_claimed. cbv zeta.
  rewrite <- (post_window_nonneg _ tz Hnn).
  split.
  - intros Hpre Hpost.
    destruct (csv_summarises tz Hpre Hpost) as (sm & Hsm & H1 & H2 & H3 & _).
    exists sm. repeat split; assumption.
  - apply csv_insufficient.
Qed.

Lemma polar_as_claimed_nonempty (samples : list PolarRun.Sample) :
  Forall (fun s => 0 <= PolarRun.s_t s) samples ->
  let tz := PolarRun.times_and_z samples in
  pre_window PolarRun.PRE_WINDOW_SECONDS tz <> [] ->
  post_window PolarRun.POST_WINDOW_SECONDS tz <> [] ->
  exists sm, PolarRun.compute_pre_post samples = Py.Ok sm /\
    pre_mean sm = HrvSpec.arith_mean (pre_window PolarRun.PRE_WINDOW_SECONDS tz) /\
    post_mean sm = HrvSpec.arith_mean (post_window PolarRun.POST_WINDOW_SECONDS tz) /\
    delta sm = post_mean sm - pre_mean sm.
Proof.
  intros Hnn tz Hpre Hpost.
  assert (Htz : Forall (fun s : R * R => 0 <= fst s) tz).
  { subst tz. unfold PolarRun.times_and_z. rewrite Forall_map. exact Hnn. }
  rewrite <- (post_window_nonneg _ tz Htz) in Hpost |- *.
  destruct (polar_summarises samples Hpre Hpost) as (sm & Hsm & H1 & H2 & H3 & _).
  exists sm. repeat split; assumption.
Qed.

Lemma late_csv_insufficient :
  insufficient_data (SessionStressCsv.compute_pre_post (PolarRun.times_and_z late_samples)).
Proof.
  apply csv_insufficient. left. exact late_pre.
Qed.

Lemma pre_window_example :
  pre_window SessionStressCsv.BASELINE_SECONDS [(0, 1); (70, 3)] = [1; 3].
Proof.
  unfold pre_window, SessionStressCsv.BASELINE_SECONDS. cbn [filter map fst snd].
  decide_cmp. reflexivity.
Qed.

Lemma post_window_example :
  post_window SessionStressCsv.POST_WINDOW_SECONDS [(0, 1); (70, 3)] = [3].
Proof.
  unfold post_window, SessionStressCsv.POST_WINDOW_SECONDS.
  cbn [filter map fst snd last].
  decide_cmp. reflexivity.
Qed.

(** C8, on the code.  On sample sequences without negative times,
    [session_stress_csv.compute_pre_post] does all the claim says: with
    samples in both windows it returns the arithmetic mean of z over the
    samples with [t_rel <= pre_window_seconds], the mean over those with
    [t_rel >= t_last - post_window_seconds] and their difference, and
    with an empty window it fails with an "insufficient data"
    [ValueError].  [polar_run.compute_pre_post] returns the same three
    values when both windows hold samples and fails with an "insufficient
    data" [ValueError] on no samples, but it has no guard for an empty
    window: for the one sample at [t_rel = 200] the pre window is empty
    and it raises [ZeroDivisionError], where the other version raises
    its "insufficient data" error. *)
Theorem C8_summary :
  (forall tz : list SessionStressCsv.Sample,
     Forall (fun s => 0 <= fst s) tz ->
     as_claimed SessionStressCsv.BASELINE_SECONDS SessionStressCsv.POST_WINDOW_SECONDS
       tz (SessionStressCsv.compute_pre_post tz)) /\
  (forall samples : list PolarRun.Sample,
     Forall (fun s => 0 <= PolarRun.s_t s) samples ->
     let tz := PolarRun.times_and_z samples in
     pre_window PolarRun.PRE_WINDOW_SECONDS tz <> [] ->
     post_window PolarRun.POST_WINDOW_SECONDS tz <> [] ->
     exists sm, PolarRun.compute_pre_post samples = Py.Ok sm /\
       pre_mean sm = HrvSpec.arith_mean (pre_window PolarRun.PRE_WINDOW_SECONDS tz) /\
       post_mean sm = HrvSpec.arith_mean (post_window PolarRun.POST_WINDOW_SECONDS tz) /\
       delta sm = post_mean sm - pre_mean sm) /\
  insufficient_data (PolarRun.compute_pre_post []) /\
  (pre_window PolarRun.PRE_WINDOW_SECONDS (PolarRun.times_and_z late_samples) = [] /\
   PolarRun.compute_pre_post late_samples = Py.Raise Py.ZeroDivisionError /\
   ~ insufficient_data (PolarRun.compute_pre_post late_samples) /\
   insufficient_data
     (SessionStressCsv.compute_pre_post (PolarRun.times_and_z late_samples))).
Proof.
  split; [| split; [| split]].
  - intros tz. apply csv_as_claimed.
  - intros samples. apply polar_as_claimed_nonempty.
  - exact I.
  - split; [exact late_pre |]. split; [exact late_raises |].
    split; [rewrite late_raises; intros H; exact H | exact late_csv_insufficient].
Qed.

Lemma C8_summary_witness :
  Forall (fun s : R * R => 0 <= fst s) [(0, 1); (70, 3)] /\
  exists sm,
    SessionStressCsv.compute_pre_post [(0, 1); (70, 3)] = Py.Ok sm /\
    pre_mean sm = HrvSpec.arith_mean [1; 3] /\
    post_mean sm = HrvSpec.arith_mean [3] /\
    delta sm = post_mean sm - pre_mean sm.
Proof.
  assert (H : Forall (fun s : R * R => 0 <= fst s) [(0, 1); (70, 3)]).
  { constructor; [cbn [fst]; lra |]. constructor; [cbn [fst]; lra |]. constructor. }
  split; [exact H |].
  destruct (proj1 C8_summary [(0, 1); (70, 3)] H) as [Hmeans _].
  cbv zeta in Hmeans. rewrite pre_window_example, post_window_example in Hmeans.
  apply Hmeans; discriminate.
Defined.

End SummaryProofs.

(** ** More about the controller *)

Module ControllerMore.
Import Controller SessionSpec ControllerProofs.

Lemma clamp_inside (lo hi x : R) :
  lo <= x <= hi -> Py.max2 lo (Py.min2 hi x) = x.
Proof.
  intros Hx. unfold Py.max2, Py.min2.
  destruct (Rlt_dec x hi); destruct (Rlt_dec lo _); lra.
Qed.

Lemma clamp_monotone (lo hi x y : R) :
  lo <= hi -> x <= y ->
  Py.max2 lo (Py.min2 hi x) <= Py.max2 lo (Py.min2 hi y).
Proof.
  intros Hle Hxy. unfold Py.max2, Py.min2.
  destruct (Rlt_dec x hi); destruct (Rlt_dec y hi);
    repeat match goal with |- context [Rlt_dec ?a ?b] => destruct (Rlt_dec a b) end;
    lra.
Qed.

(** Clamping a target never moves farther from an in-range start than the
    target is. *)
Lemma clamp_closer (lo hi x y : R) :
  lo <= x <= hi ->
  Rabs (Py.max2 lo (Py.min2 hi y) - x) <= Rabs (y - x).
Proof.
  intros Hx. unfold Py.max2, Py.min2.
  destruct (Rlt_dec y hi); destruct (Rlt_dec lo _);
    unfold Rabs; repeat destruct (Rcase_abs _); lra.
Qed.

Lemma run_relax_closed (ts : list Tick) :
  forall p, Forall relaxes ts ->
    tempo (run p ts) - 1.0 = (1 - relax_alpha) ^ length ts * (tempo p - 1.0) /\
    pitch (run p ts) - -2.0 = (1 - relax_alpha) ^ length ts * (pitch p - -2.0) /\
    volume (run p ts) - 60.0 = (1 - relax_alpha) ^ length ts * (volume p - 60.0).
Proof.
  unfold run. induction ts as [| t ts IH]; intros p Hall.
  - cbn. lra.
  - inversion Hall as [| ? ? Ht Hts]; subst. cbn [fold_left length pow].
    destruct (IH (step p t) Hts) as (H1 & H2 & H3).
    rewrite H1, H2, H3. unfold step. rewrite update_relax_eq by exact Ht.
    cbn [tempo pitch volume]. unfold relax_alpha. repeat split; ring.
Qed.

(** X1 (relaxation is a geometric decay): after [n] ticks that each have
    [is_baseline] true or [hrv_z] absent, the offset of every parameter
    from its neutral value (1.0, -2.0, 60.0) is [(1 - 0.02)^n] times its
    offset at the start, whatever the starting parameters. *)
Theorem relaxation_geometric_decay (p : AudioParams) (ts : list Tick) :
  Forall relaxes ts ->
  tempo (run p ts) - 1.0 = 0.98 ^ length ts * (tempo p - 1.0) /\
  pitch (run p ts) - -2.0 = 0.98 ^ length ts * (pitch p - -2.0) /\
  volume (run p ts) - 60.0 = 0.98 ^ length ts * (volume p - 60.0).
Proof.
  intros Hall. destruct (run_relax_closed ts p Hall) as (H1 & H2 & H3).
  replace 0.98 with (1 - relax_alpha) by (unfold relax_alpha; lra).
  auto.
Qed.

Lemma relaxation_geometric_decay_witness :
  Forall relaxes [mkTick None None false false; mkTick (Some 2.0) None true false] /\
  tempo (run (mkAudioParams 1.15 0 68)
           [mkTick None None false false; mkTick (Some 2.0) None true false]) - 1.0
  = 0.98 ^ 2 * (1.15 - 1.0).
Proof.
  assert (H : Forall relaxes
                [mkTick None None false false; mkTick (Some 2.0) None true false]).
  { constructor; [right; reflexivity |]. constructor; [left; reflexivity |]. constructor. }
  split; [exact H |].
  apply (relaxation_geometric_decay (mkAudioParams 1.15 0 68) _ H).
Defined.

Lemma hold_at_setpoint (p : AudioParams) (ipw : bool) :
  in_range p -> update_audio_params p (Some 0) None false ipw = p.
Proof.
  intros (Ht & Hp & Hv). destruct p as [t pi v]. cbn [tempo pitch volume] in *.
  unfold update_audio_params. cbn [tempo pitch volume]. unfold_consts.
  f_equal.
  - rewrite <- (clamp_inside 0.85 1.15 t) at 2 by lra. do 2 f_equal. lra.
  - rewrite <- (clamp_inside (-6.0) 0.0 pi) at 2 by lra. do 2 f_equal. lra.
  - rewrite <- (clamp_inside 52.0 68.0 v) at 2 by lra. do 2 f_equal. lra.
Qed.

(** X2 (holding at the setpoint): with [hrv_z = 0], no FAA and
    [is_baseline] false, parameters within the configured ranges are
    returned unchanged; and a relaxation tick returns its input unchanged
    exactly when the input is the neutral point (1.0, -2.0, 60.0). *)
Theorem setpoint_holds_parameters (p : AudioParams) :
  (in_range p ->
   forall is_post_window : bool,
     update_audio_params p (Some 0) None false is_post_window = p) /\
  (forall (hrv_z faa_z : option R) (is_baseline is_post_window : bool),
     is_baseline = true \/ hrv_z = None ->
     (update_audio_params p hrv_z faa_z is_baseline is_post_window = p <->
      p = default_params)).
Proof.
  split.
  - intros Hin ipw. apply hold_at_setpoint. exact Hin.
  - intros hz faa b ipw Hr. rewrite update_relax_eq by exact Hr.
    destruct p as [t pi v]. cbn [tempo pitch volume]. unfold default_params, relax_alpha.
    split.
    + intros [= Ht Hp Hv]. f_equal; lra.
    + intros [= -> -> ->]. f_equal; lra.
Qed.

Lemma setpoint_holds_parameters_witness :
  in_range (mkAudioParams 1.1 (-3.0) 55.0) /\
  update_audio_params (mkAudioParams 1.1 (-3.0) 55.0) (Some 0) None false false
  = mkAudioParams 1.1 (-3.0) 55.0.
Proof.
  assert (H : in_range (mkAudioParams 1.1 (-3.0) 55.0)).
  { unfold in_range; cbn [tempo pitch volume]. unfold_consts. lra. }
  split; [exact H |].
  apply (proj1 (setpoint_holds_parameters (mkAudioParams 1.1 (-3.0) 55.0)) H).
Defined.

(** The size of an optional FAA input; 0 when it is absent. *)
Lemma faa_term_bound (k x : R) (faa_z : option R) :
  0 <= k ->
  Rabs (match faa_z with Some f => x + k * f | None => x end - x)
  <= k * match faa_z with Some f => Rabs f | None => 0 end.
Proof.
  intros Hk. destruct faa_z as [f |].
  - replace (x + k * f - x) with (k * f) by ring.
    rewrite Rabs_mult, (Rabs_right k) by lra. lra.
  - replace (x - x) with 0 by ring. rewrite Rabs_R0. lra.
Qed.

Lemma step_bounds (p : AudioParams) (z : R) (faa_z : option R)
    (is_post_window : bool) :
  in_range p ->
  let q := update_audio_params p (Some z) faa_z false is_post_window in
  let f := match faa_z with Some f => Rabs f | None => 0 end in
  tempo_step p q <= 0.01 * Rabs z /\
  pitch_step p q <= 0.03 * Rabs z + 0.15 * f /\
  volume_step p q <= 0.4 * Rabs z + 1.0 * f.
Proof.
  intros (Ht & Hp & Hv) q f. subst q.
  unfold tempo_step, pitch_step, volume_step, update_audio_params.
  cbn [tempo pitch volume].
  assert (Hz : forall k, Rabs (k * (HRV_SETPOINT - z) * DT) = Rabs k * Rabs z).
  { intros k. unfold_consts.
    replace (k * (0.0 - z) * 1.0) with (k * - z) by lra.
    rewrite Rabs_mult, Rabs_Ropp. reflexivity. }
  split; [| split].
  - eapply Rle_trans; [apply clamp_closer; exact Ht |].
    replace (tempo p + HRV_KI_TEMPO * (HRV_SETPOINT - z) * DT - tempo p)
      with (HRV_KI_TEMPO * (HRV_SETPOINT - z) * DT) by ring.
    rewrite Hz. unfold HRV_KI_TEMPO. rewrite (Rabs_right 0.010) by lra. lra.
  - eapply Rle_trans; [apply clamp_closer; exact Hp |].
    set (x := pitch p + HRV_KI_PITCH * (HRV_SETPOINT - z) * DT).
    pose proof (faa_term_bound FAA_KP_PITCH x faa_z) as Hf.
    pose proof (Rabs_triang
                  (match faa_z with Some f0 => x + FAA_KP_PITCH * f0 | None => x end - x)
                  (x - pitch p)) as Htri.
    replace (match faa_z with Some f0 => x + FAA_KP_PITCH * f0 | None => x end - x
             + (x - pitch p))
      with (match faa_z with Some f0 => x + FAA_KP_PITCH * f0 | None => x end - pitch p)
      in Htri by ring.
    assert (Hx : Rabs (x - pitch p) = 0.03 * Rabs z).
    { subst x.
      replace (pitch p + HRV_KI_PITCH * (HRV_SETPOINT - z) * DT - pitch p)
        with (HRV_KI_PITCH * (HRV_SETPOINT - z) * DT) by ring.
      rewrite Hz. unfold HRV_KI_PITCH. rewrite (Rabs_left (-0.030)) by lra. lra. }
    unfold FAA_KP_PITCH in *. fold f in Hf. lra.
  - eapply Rle_trans; [apply clamp_closer; exact Hv |].
    set (x := volume p + HRV_KI_VOLUME * (HRV_SETPOINT - z) * DT).
    pose proof (faa_term_bound FAA_KP_VOLUME x faa_z) as Hf.
    pose proof (Rabs_triang
                  (match faa_z with Some f0 => x + FAA_KP_VOLUME * f0 | None => x end - x)
                  (x - volume p)) as Htri.
    replace (match faa_z with Some f0 => x + FAA_KP_VOLUME * f0 | None => x end - x
             + (x - volume p))
      with (match faa_z with Some f0 => x + FAA_KP_VOLUME * f0 | None => x end - volume p)
      in Htri by ring.
    assert (Hx : Rabs (x - volume p) = 0.4 * Rabs z).
    { subst x.
      replace (volume p + HRV_KI_VOLUME * (HRV_SETPOINT - z) * DT - volume p)
        with (HRV_KI_VOLUME * (HRV_SETPOINT - z) * DT) by ring.
      rewrite Hz. unfold HRV_KI_VOLUME. rewrite (Rabs_left (-0.400)) by lra. lra. }
    unfold FAA_KP_VOLUME in *. fold f in Hf. lra.
Qed.

(** X3 (bounded change per tick): in the integral branch, from parameters
    within the configured ranges, one update moves tempo by at most
    [0.01 * |z|], pitch by at most [0.03 * |z| + 0.15 * |faa|] and volume
    by at most [0.4 * |z| + 1.0 * |faa|], where [|faa|] is 0 when FAA is
    absent. *)
Theorem update_step_bounded (p : AudioParams) (z : R) (faa_z : option R)
    (is_post_window : bool) :
  in_range p ->
  let q := update_audio_params p (Some z) faa_z false is_post_window in
  let f := match faa_z with Some f => Rabs f | None => 0 end in
  tempo_step p q <= 0.01 * Rabs z /\
  pitch_step p q <= 0.03 * Rabs z + 0.15 * f /\
  volume_step p q <= 0.4 * Rabs z + 1.0 * f.
Proof.
  intros Hin q f. exact (step_bounds p z faa_z is_post_window Hin).
Qed.

Lemma update_step_bounded_witness :
  in_range default_params /\
  tempo_step default_params
    (update_audio_params default_params (Some (-3.0)) (Some 0.5) false false)
  <= 0.01 * Rabs (-3.0).
Proof.
  split; [exact default_in_range |].
  apply (update_step_bounded default_params (-3.0) (Some 0.5) false default_in_range).
Defined.

(** X4 (direction of the response): in the integral branch, for the same
    previous parameters and FAA input, a larger [hrv_z] gives a tempo that
    is no larger and a pitch and a volume that are no smaller.  So from
    in-range parameters and without FAA, [hrv_z >= 0] never raises tempo
    and never lowers pitch or volume. *)
Theorem response_direction (p : AudioParams) (faa_z : option R) (ipw : bool) :
  (forall z1 z2 : R, z1 <= z2 ->
     let q1 := update_audio_params p (Some z1) faa_z false ipw in
     let q2 := update_audio_params p (Some z2) faa_z false ipw in
     tempo q2 <= tempo q1 /\ pitch q1 <= pitch q2 /\ volume q1 <= volume q2) /\
  (in_range p ->
   forall z : R, 0 <= z ->
     let q := update_audio_params p (Some z) None false ipw in
     tempo q <= tempo p /\ pitch p <= pitch q /\ volume p <= volume q).
Proof.
  assert (Hmono : forall z1 z2 : R, z1 <= z2 ->
     let q1 := update_audio_params p (Some z1) faa_z false ipw in
     let q2 := update_audio_params p (Some z2) faa_z false ipw in
     tempo q2 <= tempo q1 /\ pitch q1 <= pitch q2 /\ volume q1 <= volume q2).
  { intros z1 z2 Hz q1 q2. subst q1 q2. unfold update_audio_params.
    cbn [tempo pitch volume].
    split; [| split]; apply clamp_monotone; unfold_consts; try lra;
      destruct faa_z; lra. }
  split; [exact Hmono |].
  intros Hin z Hz q. subst q.
  pose proof (hold_at_setpoint p ipw Hin) as Hhold.
  assert (H0 : forall z1 z2 : R, z1 <= z2 ->
     let q1 := update_audio_params p (Some z1) None false ipw in
     let q2 := update_audio_params p (Some z2) None false ipw in
     tempo q2 <= tempo q1 /\ pitch q1 <= pitch q2 /\ volume q1 <= volume q2).
  { intros z1 z2 Hz12 q1 q2. subst q1 q2. unfold update_audio_params.
    cbn [tempo pitch volume].
    split; [| split]; apply clamp_monotone; unfold_consts; lra. }
  specialize (H0 0 z Hz). cbv zeta in H0. rewrite Hhold in H0. exact H0.
Qed.

Lemma response_direction_witness :
  (-1 <= 2) /\
  tempo (update_audio_params default_params (Some 2) (Some 0.3) false false)
  <= tempo (update_audio_params default_params (Some (-1)) (Some 0.3) false false).
Proof.
  assert (H : -1 <= 2) by lra.
  split; [exact H |].
  apply (proj1 (response_direction default_params (Some 0.3) false) (-1) 2 H).
Defined.

(** X5 (no integrator wind-up): the clamped output is the whole state, so
    whenever [tempo - 0.01 * z] lies within the tempo range that is
    exactly the new tempo, and a tempo saturated at [TEMPO_MAX] drops
    below it on the first tick with [z > 0] (and one at [TEMPO_MIN] rises
    above it on the first tick with [z < 0]). *)
Theorem saturation_recovers_at_once (p : AudioParams) (z : R) (faa_z : option R)
    (ipw : bool) :
  let q := update_audio_params p (Some z) faa_z false ipw in
  (TEMPO_MIN <= tempo p - 0.01 * z <= TEMPO_MAX -> tempo q = tempo p - 0.01 * z) /\
  (tempo p = TEMPO_MAX -> 0 < z -> tempo q < TEMPO_MAX) /\
  (tempo p = TEMPO_MIN -> z < 0 -> TEMPO_MIN < tempo q).
Proof.
  intros q. subst q. unfold update_audio_params. cbn [tempo].
  replace (tempo p + HRV_KI_TEMPO * (HRV_SETPOINT - z) * DT)
    with (tempo p - 0.01 * z) by (unfold_consts; lra).
  split; [| split].
  - intros Hin. apply clamp_inside. exact Hin.
  - intros Hmax Hz. rewrite Hmax. unfold Py.max2, Py.min2. unfold_consts.
    destruct (Rlt_dec _ 1.15); destruct (Rlt_dec 0.85 _); lra.
  - intros Hmin Hz. rewrite Hmin. unfold Py.max2, Py.min2. unfold_consts.
    destruct (Rlt_dec _ 1.15); destruct (Rlt_dec 0.85 _); lra.
Qed.

Lemma saturation_recovers_at_once_witness :
  tempo (mkAudioParams 1.15 (-2.0) 60.0) = TEMPO_MAX /\ 0 < 0.5 /\
  tempo (update_audio_params (mkAudioParams 1.15 (-2.0) 60.0) (Some 0.5) None false false)
  < TEMPO_MAX.
Proof.
  assert (H1 : tempo (mkAudioParams 1.15 (-2.0) 60.0) = TEMPO_MAX) by reflexivity.
  assert (H2 : 0 < 0.5) by lra.
  split; [exact H1 |]. split; [exact H2 |].
  apply (proj1 (proj2 (saturation_recovers_at_once
                         (mkAudioParams 1.15 (-2.0) 60.0) 0.5 None false)) H1 H2).
Defined.

End ControllerMore.

(** ** The audio engine and the simulated streams *)

Module EngineProofs.
Import Controller AudioEngine SessionSpec ControllerProofs ControllerMore.

Lemma int_floor (x : R) : 0 <= x -> IZR (PyMore.int x) <= x < IZR (PyMore.int x) + 1.
Proof.
  intros Hx. unfold PyMore.int. destruct (Rle_dec 0 x); [| contradiction].
  pose proof (base_Int_part x). lra.
Qed.

Lemma int_between (x : R) (lo hi : Z) :
  (0 <= lo)%Z -> IZR lo <= x <= IZR hi -> (lo <= PyMore.int x <= hi)%Z.
Proof.
  intros Hlo [Hl Hh].
  assert (H0 : 0 <= x). { apply IZR_le in Hlo. lra. }
  destruct (int_floor x H0) as [Hfl Hfu].
  split.
  - apply Z.lt_succ_r. apply lt_IZR. rewrite succ_IZR. lra.
  - apply le_IZR. lra.
Qed.

(** X6 (the engine's own limits): whatever parameters [set_params]
    receives, the rate it hands to the player lies in [0.90, 1.20] and the
    volume is an integer in [0, 100]. *)
Theorem set_params_limits (params : AudioParams) :
  0.90 <= rate (set_params params) <= 1.20 /\
  (0 <= volume_int (set_params params) <= 100)%Z.
Proof.
  unfold set_params; cbn [rate volume_int]. split.
  - apply clamp_bounds. lra.
  - apply int_between; [lia |].
    pose proof (clamp_bounds 0 100 (volume params)) as H. lra.
Qed.

(** X7 (controller output through the engine): for parameters within the
    controller's ranges the engine's volume clamp is idle, the volume
    handed to the player being the integer part of [volume], between 52
    and 68.  The rate is [1.05 * tempo] only for [tempo] in [6/7, 8/7]:
    any tempo of 8/7 or more is played at rate 1.20 and any tempo of 6/7
    or less at rate 0.90. *)
Theorem controller_output_applied (params : AudioParams) :
  (in_range params ->
     IZR (volume_int (set_params params)) <= volume params
       < IZR (volume_int (set_params params)) + 1 /\
     (52 <= volume_int (set_params params) <= 68)%Z) /\
  (6 / 7 <= tempo params <= 8 / 7 -> rate (set_params params) = 1.05 * tempo params) /\
  (8 / 7 <= tempo params -> rate (set_params params) = 1.20) /\
  (tempo params <= 6 / 7 -> rate (set_params params) = 0.90).
Proof.
  unfold set_params; cbn [rate volume_int]. unfold base_rate.
  split; [| split; [| split]].
  - intros (_ & _ & Hv). unfold VOLUME_MIN, VOLUME_MAX in Hv.
    rewrite (clamp_inside 0 100 (volume params)) by lra.
    split; [apply int_floor; lra | apply int_between; [lia | lra]].
  - intros Ht. apply clamp_inside. lra.
  - intros Ht. unfold Py.max2, Py.min2.
    destruct (Rlt_dec _ 1.20); destruct (Rlt_dec 0.90 _); lra.
  - intros Ht. unfold Py.max2, Py.min2.
    destruct (Rlt_dec _ 1.20); destruct (Rlt_dec 0.90 _); lra.
Qed.

Lemma controller_output_applied_witness :
  8 / 7 <= tempo (mkAudioParams 1.15 (-2.0) 60.0) /\
  rate (set_params (mkAudioParams 1.15 (-2.0) 60.0)) = 1.20.
Proof.
  assert (H : 8 / 7 <= tempo (mkAudioParams 1.15 (-2.0) 60.0)) by (cbn; lra).
  split; [exact H |].
  apply (proj1 (proj2 (proj2 (controller_output_applied
                                (mkAudioParams 1.15 (-2.0) 60.0)))) H).
Defined.

(** *** sim_run.py *)

Lemma params_at_bounds (t : R) :
  0.8 <= tempo (SimRun.params_at t) <= 1.2 /\
  pitch (SimRun.params_at t) = 0 /\
  40 <= volume (SimRun.params_at t) <= 80.
Proof.
  unfold SimRun.params_at; cbn [tempo pitch volume].
  pose proof (SIN_bound (t / 20.0)). repeat split; lra.
Qed.

Lemma stream_from_nth (n : nat) :
  forall (t : R) (k : nat), (k < n)%nat ->
    nth_error (SimRun.stream_from t n) k = Some (SimRun.params_at (t + INR k)).
Proof.
  induction n as [| n IH]; intros t k Hk; [lia |].
  destruct k as [| k]; cbn [SimRun.stream_from nth_error].
  - do 2 f_equal. cbn. lra.
  - rewrite IH by lia. do 2 f_equal. rewrite S_INR. unfold SimRun.dt. lra.
Qed.

(** X8 (the simulated parameter stream): the [k]-th value yielded by
    [simulated_param_stream] is the one for time [t = k]; every yielded
    value has tempo in [0.8, 1.2], pitch 0 and volume in [40, 80], so
    the engine's volume clamp never acts on it. *)
Theorem simulated_params_bounded (n : nat) :
  (forall k : nat, (k < n)%nat ->
     nth_error (SimRun.simulated_param_stream n) k
     = Some (SimRun.params_at (INR k))) /\
  Forall (fun q =>
            0.8 <= tempo q <= 1.2 /\ pitch q = 0 /\ 40 <= volume q <= 80 /\
            IZR (volume_int (set_params q)) <= volume q
              < IZR (volume_int (set_params q)) + 1)
         (SimRun.simulated_param_stream n).
Proof.
  split.
  - intros k Hk. unfold SimRun.simulated_param_stream.
    rewrite stream_from_nth by exact Hk. do 2 f_equal. lra.
  - unfold SimRun.simulated_param_stream. generalize 0.0 as t.
    induction n as [| n IH]; intros t; cbn [SimRun.stream_from]; constructor.
    + destruct (params_at_bounds t) as (Ht & Hp & Hv).
      repeat split; try lra.
      all: unfold set_params; cbn [volume_int];
        rewrite (clamp_inside 0 100) by lra; apply int_floor; lra.
    + apply IH.
Qed.

Lemma simulated_params_bounded_witness :
  (2 < 5)%nat /\
  nth_error (SimRun.simulated_param_stream 5) 2 = Some (SimRun.params_at (INR 2)).
Proof.
  assert (H : (2 < 5)%nat) by lia.
  split; [exact H |].
  apply (proj1 (simulated_params_bounded 5) 2%nat H).
Defined.

(** *** polar_run.py: the simulated z-scores *)

Lemma simulated_z_bounds (t0 : R) (d : PolarSim.Draw) :
  PolarSim.well_drawn d -> -0.75 <= PolarSim.simulated_z t0 d < 0.75.
Proof.
  unfold PolarSim.well_drawn, PolarSim.simulated_z, PyMore.uniform. intros Hu.
  pose proof (SIN_bound (2.0 * PI * (PolarSim.draw_clock d - t0) / 90.0)).
  lra.
Qed.

(** X9 (the simulated z-scores are bounded): every z-score yielded by
    [simulated_rmssd_z_stream] lies in [-0.75, 0.75), whatever the clock
    readings, as long as [random()] returns values in [0, 1). *)
Theorem simulated_z_bounded (t0 : R) (ds : list PolarSim.Draw) :
  Forall PolarSim.well_drawn ds ->
  Forall (fun z => -0.75 <= z < 0.75) (PolarSim.simulated_rmssd_z_stream t0 ds).
Proof.
  intros Hds. unfold PolarSim.simulated_rmssd_z_stream.
  induction Hds as [| d ds Hd _ IH]; cbn [map]; constructor.
  - apply simulated_z_bounds. exact Hd.
  - exact IH.
Qed.

Lemma simulated_z_bounded_witness :
  Forall PolarSim.well_drawn [PolarSim.mkDraw 12 0; PolarSim.mkDraw 13 0.5] /\
  Forall (fun z => -0.75 <= z < 0.75)
    (PolarSim.simulated_rmssd_z_stream 11
       [PolarSim.mkDraw 12 0; PolarSim.mkDraw 13 0.5]).
Proof.
  assert (H : Forall PolarSim.well_drawn [PolarSim.mkDraw 12 0; PolarSim.mkDraw 13 0.5]).
  { repeat constructor; cbn; lra. }
  split; [exact H |].
  apply (simulated_z_bounded 11 _ H).
Defined.

(** X10 (a simulated session moves slowly): when [apply_biofeedback] runs
    outside baseline on a simulated z-score, from parameters within the
    configured ranges, tempo changes by at most 0.0075, pitch by at most
    0.0225 and volume by at most 0.3. *)
Theorem simulated_tick_is_small (p : AudioParams) (t_rel t0 : R) (d : PolarSim.Draw)
    (is_post_window : bool) :
  in_range p -> PolarSim.well_drawn d ->
  let q := PolarRun.apply_biofeedback p t_rel (PolarSim.simulated_z t0 d)
             false is_post_window in
  tempo_step p q <= 0.0075 /\ pitch_step p q <= 0.0225 /\ volume_step p q <= 0.3.
Proof.
  intros Hin Hd q. subst q. unfold PolarRun.apply_biofeedback.
  destruct (step_bounds p (PolarSim.simulated_z t0 d) None is_post_window Hin)
    as (Ht & Hp & Hv).
  pose proof (simulated_z_bounds t0 d Hd) as Hz.
  assert (Habs : Rabs (PolarSim.simulated_z t0 d) <= 0.75).
  { unfold Rabs. destruct (Rcase_abs _); lra. }
  repeat split; lra.
Qed.

Lemma simulated_tick_is_small_witness :
  in_range default_params /\ PolarSim.well_drawn (PolarSim.mkDraw 100 0.25) /\
  tempo_step default_params
    (PolarRun.apply_biofeedback default_params 70
       (PolarSim.simulated_z 30 (PolarSim.mkDraw 100 0.25)) false false)
  <= 0.0075.
Proof.
  assert (H : PolarSim.well_drawn (PolarSim.mkDraw 100 0.25)).
  { unfold PolarSim.well_drawn; cbn; lra. }
  split; [exact default_in_range |]. split; [exact H |].
  apply (simulated_tick_is_small default_params 70 30 _ false default_in_range H).
Defined.

End EngineProofs.

(** ** More about the session loops *)

Module SessionMore.
Import Controller PolarRun SessionSpec ControllerProofs ControllerMore SessionProofs.

Lemma times_and_z_app (ss1 ss2 : list Sample) :
  times_and_z (ss1 ++ ss2) = times_and_z ss1 ++ times_and_z ss2.
Proof. unfold times_and_z. apply map_app. Qed.

(** A loop whose start time is fixed logs one sample per processed turn. *)
Lemma stream_loop_logged (us : list Turn) :
  forall (l : Loop) (t : R),
    t0 l = Some t ->
    times_and_z (samples (stream_loop l us)) =
    times_and_z (samples l)
    ++ map (fun u => (turn_clock u - t, turn_z u)) (processed us).
Proof.
  induction us as [| u us IH]; intros l t Ht; cbn [stream_loop processed].
  - cbn [map]. rewrite app_nil_r. reflexivity.
  - destruct (turn_finished u) eqn:Hfin.
    + unfold loop_body. rewrite Hfin. cbn [samples map]. rewrite app_nil_r. reflexivity.
    + rewrite loop_body_continues by exact Hfin. cbv zeta. rewrite Ht.
      erewrite IH by reflexivity.
      cbn [samples map]. rewrite times_and_z_app, <- app_assoc. reflexivity.
Qed.

Lemma session_times (us : list Turn) :
  times_and_z (samples (stream_loop session_start us)) =
  map (fun u => (turn_clock u - start_time us, turn_z u)) (processed us).
Proof.
  destruct us as [| u us]; [reflexivity |].
  cbn [stream_loop processed start_time].
  destruct (turn_finished u) eqn:Hfin.
  - unfold loop_body. rewrite Hfin. reflexivity.
  - rewrite loop_body_continues by exact Hfin. cbv zeta.
    erewrite stream_loop_logged by reflexivity. reflexivity.
Qed.

(** X11 (one sample per processed turn): a stream loop entered at the
    start of [run_session] logs exactly one sample for every turn before
    the first one on which the audio engine reports [finished], in order;
    its time is that turn's clock reading minus the start time fixed on
    the first turn, its z-score the one the stream yielded. *)
Theorem samples_follow_turns (us : list Turn) :
  times_and_z (samples (stream_loop session_start us)) =
    map (fun u => (turn_clock u - start_time us, turn_z u)) (processed us) /\
  length (samples (stream_loop session_start us)) = length (processed us).
Proof.
  pose proof (session_times us) as H.
  split; [exact H |].
  apply (f_equal (@length (R * R))) in H.
  unfold times_and_z in H. rewrite !length_map in H. exact H.
Qed.

Lemma lagging_in_range (ss : list Sample) :
  forall p, in_range p -> lagging p ss -> Forall (fun s => in_range (logged s)) ss.
Proof.
  induction ss as [| s ss IH]; intros p Hp Hlag; constructor.
  - destruct Hlag as [-> _]. exact Hp.
  - destruct Hlag as [Hs Hrest]. apply (IH (update_after s)); [| exact Hrest].
    unfold update_after. apply update_in_range. rewrite Hs. exact Hp.
Qed.

(** X12 (every logged row is within range): in every sample that
    [run_session] logs, through the live loop or the simulated one, tempo,
    pitch and volume lie within the controller's configured ranges, and
    so do the parameters in force when the loops end. *)
Theorem logged_params_in_range (live : list Turn) (simulated : option (list Turn)) :
  Forall (fun s => in_range (logged s)) (samples (run_session_loops live simulated)) /\
  in_range (current_params (run_session_loops live simulated)).
Proof.
  destruct (run_session_loops_inv live simulated) as [Hlag Hcur].
  pose proof (lagging_in_range _ _ default_in_range Hlag) as Hall.
  split; [exact Hall |].
  rewrite Hcur. unfold params_after.
  destruct (samples (run_session_loops live simulated)) as [| s ss] eqn:Es
    using rev_ind; [exact default_in_range |].
  rewrite fold_left_app. cbn [fold_left]. unfold update_after.
  apply update_in_range. rewrite Forall_forall in Hall.
  apply Hall. apply in_or_app. right. left. reflexivity.
Qed.

Lemma relax_default (hz faa : option R) (ipw : bool) :
  update_audio_params default_params hz faa true ipw = default_params.
Proof.
  rewrite update_relax_eq by (left; reflexivity).
  unfold default_params, relax_alpha; cbn [tempo pitch volume]. f_equal; lra.
Qed.

Lemma lagging_baseline (ss : list Sample) :
  lagging default_params ss ->
  Forall (fun s => s_t s <= BASELINE_SECONDS) ss ->
  Forall (fun s => logged s = default_params) ss /\
  params_after default_params ss = default_params.
Proof.
  induction ss as [| s ss IH] using rev_ind; intros Hlag Hbase.
  - split; [constructor | reflexivity].
  - apply Forall_app in Hbase. destruct Hbase as [Hss Hs].
    inversion Hs as [| ? ? Hst _]; subst.
    assert (Hlag' : lagging default_params ss /\ logged s = params_after default_params ss).
    { clear - Hlag. revert Hlag. generalize default_params as p.
      induction ss as [| a ss IHs]; intros p Hlag; cbn in *.
      - destruct Hlag as [H _]. split; [exact I | exact H].
      - destruct Hlag as [Ha Hrest]. destruct (IHs _ Hrest) as [H1 H2].
        split; [split; assumption | exact H2]. }
    destruct Hlag' as [Hlss Hlog].
    destruct (IH Hlss Hss) as [Hall Hafter].
    rewrite Hafter in Hlog.
    split.
    + apply Forall_app. split; [exact Hall |]. constructor; [exact Hlog | constructor].
    + rewrite params_after_snoc. unfold update_after. rewrite Hlog.
      rewrite (proj2 (PyProofs.leb_true _ _) Hst). apply relax_default.
Qed.

(** X13 (nothing moves during baseline): as long as every sample logged
    so far has [t_rel <= BASELINE_SECONDS], every sample logs the default
    parameters (1.0, -2.0, 60.0) and the parameters in force are still
    the defaults, whatever z-scores the stream yielded. *)
Theorem baseline_keeps_defaults (live : list Turn) (simulated : option (list Turn)) :
  Forall (fun s => s_t s <= BASELINE_SECONDS)
    (samples (run_session_loops live simulated)) ->
  Forall (fun s => logged s = default_params)
    (samples (run_session_loops live simulated)) /\
  current_params (run_session_loops live simulated) = default_params.
Proof.
  intros Hbase.
  destruct (run_session_loops_inv live simulated) as [Hlag Hcur].
  destruct (lagging_baseline _ Hlag Hbase) as [Hall Hafter].
  split; [exact Hall | congruence].
Qed.

Lemma baseline_keeps_defaults_witness :
  let live := [mkTurn (-1.0) 100 false 100; mkTurn 0.5 0 false 130] in
  Forall (fun s => s_t s <= BASELINE_SECONDS) (samples (run_session_loops live None)) /\
  current_params (run_session_loops live None) = default_params.
Proof.
  intros live.
  assert (H : Forall (fun s => s_t s <= BASELINE_SECONDS)
                (samples (run_session_loops live None))).
  { unfold live, run_session_loops, session_start, BASELINE_SECONDS.
    cbn [stream_loop loop_body turn_finished turn_clock turn_clock0 turn_z t0
         samples current_params app].
    constructor; [cbn [s_t]; lra |].
    constructor; [cbn [s_t]; lra |]. constructor. }
  split; [exact H |].
  apply (proj2 (baseline_keeps_defaults live None H)).
Defined.

End SessionMore.

(** ** More about the summary *)

Module SummaryMore.
Import SummarySpec SessionSpec PyProofs SummaryProofs SessionMore.

Lemma mean_div_cases (vals : list R) :
  (vals = [] /\ Py.div (Py.sum vals) (Py.len vals) = Py.Raise Py.ZeroDivisionError) \/
  (vals <> [] /\ Py.div (Py.sum vals) (Py.len vals) = Py.Ok (HrvSpec.arith_mean vals)).
Proof.
  destruct vals as [| v vals].
  - left. split; [reflexivity | apply mean_div_empty].
  - right. split; [discriminate | apply mean_div_ok; discriminate].
Qed.

(** X14 (how [polar_run.compute_pre_post] ends): it raises [ValueError]
    exactly on an empty sample list, raises [ZeroDivisionError] exactly
    when there are samples but the pre window or the post window (from
    [max(0, t_last - 60)]) holds none, and returns a summary exactly when
    both windows hold samples. *)
Theorem polar_summary_outcomes (samples : list PolarRun.Sample) :
  let tz := PolarRun.times_and_z samples in
  let pre := pre_window PolarRun.PRE_WINDOW_SECONDS tz in
  let post := post_window_from0 PolarRun.POST_WINDOW_SECONDS tz in
  (samples = [] <-> exists msg, PolarRun.compute_pre_post samples
                                = Py.Raise (Py.ValueError msg)) /\
  (samples <> [] /\ (pre = [] \/ post = []) <->
     PolarRun.compute_pre_post samples = Py.Raise Py.ZeroDivisionError) /\
  (pre <> [] /\ post <> [] <-> exists sm, PolarRun.compute_pre_post samples = Py.Ok sm).
Proof.
  intros tz pre post.
  destruct samples as [| s0 rest] eqn:Es.
  - subst tz pre post. cbn.
    repeat split; intros; try discriminate; try (eexists; reflexivity);
      repeat match goal with
             | H : exists _, _ |- _ => destruct H
             | H : _ /\ _ |- _ => destruct H
             end; try discriminate; try contradiction; try tauto.
  - assert (Hne : s0 :: rest <> []) by discriminate.
    pose proof (polar_compute_windows (s0 :: rest) Hne) as Hc. cbv zeta in Hc.
    fold tz in Hc. fold pre post in Hc. rewrite Hc. clear Hc.
    destruct (mean_div_cases pre) as [[Hpre ->] | [Hpre ->]];
      destruct (mean_div_cases post) as [[Hpost ->] | [Hpost ->]]; cbn [Py.bind].
    all: repeat split; intros; try discriminate; try tauto;
      try (eexists; reflexivity);
      repeat match goal with
             | H : exists _, _ |- _ => destruct H
             | H : _ /\ _ |- _ => destruct H
             end; try discriminate; try contradiction; try tauto.
Qed.

Lemma polar_summary_outcomes_witness :
  late_samples <> [] /\
  PolarRun.compute_pre_post late_samples = Py.Raise Py.ZeroDivisionError.
Proof.
  assert (H : late_samples <> []) by discriminate.
  split; [exact H |].
  apply (proj1 (proj1 (proj2 (polar_summary_outcomes late_samples)))).
  split; [exact H | left; exact late_pre].
Defined.

(** The z-scores of a window are z-scores of the samples. *)
Lemma window_values (f : R * R -> bool) (tz : list (R * R)) (z : R) :
  In z (map snd (filter f tz)) -> In z (map snd tz).
Proof.
  intros Hin. apply in_map_iff in Hin. destruct Hin as (s & <- & Hs).
  apply filter_In in Hs. apply in_map. apply Hs.
Qed.

Lemma arith_mean_within (a b : R) (xs : list R) :
  xs <> [] -> all_within a b xs -> a <= HrvSpec.arith_mean xs <= b.
Proof.
  intros Hne Hall. unfold HrvSpec.arith_mean.
  assert (Hsum : INR (length xs) * a <= fold_right Rplus 0 xs <= INR (length xs) * b).
  { clear Hne. induction Hall as [| x xs Hx _ IH].
    - cbn. lra.
    - cbn [fold_right length]. rewrite S_INR. lra. }
  assert (Hlen : 0 < INR (length xs)).
  { destruct xs; [contradiction |]. apply lt_0_INR. cbn. lia. }
  split.
  - apply Rmult_le_reg_l with (INR (length xs)); [exact Hlen |].
    replace (INR (length xs) * (fold_right Rplus 0 xs / INR (length xs)))
      with (fold_right Rplus 0 xs) by (field; lra). lra.
  - apply Rmult_le_reg_l with (INR (length xs)); [exact Hlen |].
    replace (INR (length xs) * (fold_right Rplus 0 xs / INR (length xs)))
      with (fold_right Rplus 0 xs) by (field; lra). lra.
Qed.

Lemma all_within_window (a b : R) (f : R * R -> bool) (tz : list (R * R)) :
  all_within a b (map snd tz) -> all_within a b (map snd (filter f tz)).
Proof.
  unfold all_within. rewrite !Forall_forall. intros Hall z Hz.
  apply Hall. eapply window_values. exact Hz.
Qed.

(** X15 (the summary stays within the data): when every z-score of the
    samples lies in [[a, b]] and [polar_run.compute_pre_post] returns a
    summary, its pre mean and post mean lie in [[a, b]] and its delta is
    at most [b - a] in size. *)
Theorem summary_within_data (samples : list PolarRun.Sample) (a b : R) (sm : Summary) :
  all_within a b (map PolarRun.s_z samples) ->
  PolarRun.compute_pre_post samples = Py.Ok sm ->
  a <= pre_mean sm <= b /\ a <= post_mean sm <= b /\ Rabs (delta sm) <= b - a.
Proof.
  intros Hall Hok.
  assert (Hne : samples <> []) by (intros ->; discriminate).
  pose proof (polar_compute_windows samples Hne) as Hc. cbv zeta in Hc.
  rewrite Hc in Hok. clear Hc.
  set (tz := PolarRun.times_and_z samples) in *.
  assert (Htz : all_within a b (map snd tz)).
  { subst tz. unfold PolarRun.times_and_z. rewrite map_map. exact Hall. }
  destruct (mean_div_cases (pre_window PolarRun.PRE_WINDOW_SECONDS tz))
    as [[_ Hpre] | [Hpre_ne Hpre]]; rewrite Hpre in Hok; cbn [Py.bind] in Hok;
    [discriminate |].
  destruct (mean_div_cases (post_window_from0 PolarRun.POST_WINDOW_SECONDS tz))
    as [[_ Hpost] | [Hpost_ne Hpost]]; rewrite Hpost in Hok; cbn [Py.bind] in Hok;
    [discriminate |].
  injection Hok as <-. cbn [pre_mean post_mean delta].
  pose proof (arith_mean_within a b _ Hpre_ne (all_within_window a b _ tz Htz)) as H1.
  pose proof (arith_mean_within a b _ Hpost_ne (all_within_window a b _ tz Htz)) as H2.
  repeat split; try lra. unfold Rabs. destruct (Rcase_abs _); lra.
Qed.

(** X16 (the two versions agree): on the same times and z-scores,
    [polar_run.compute_pre_post] returns a summary exactly when
    [session_stress_csv.compute_pre_post] does, and then it is the same
    summary. *)
Theorem summaries_agree (samples : list PolarRun.Sample) (sm : Summary) :
  PolarRun.compute_pre_post samples = Py.Ok sm <->
  SessionStressCsv.compute_pre_post (PolarRun.times_and_z samples) = Py.Ok sm.
Proof.
  destruct samples as [| s0 rest] eqn:Es; [cbn; split; discriminate |].
  rewrite <- Es.
  assert (Hne : samples <> []) by (rewrite Es; discriminate).
  assert (Hne' : PolarRun.times_and_z samples <> []) by (rewrite Es; discriminate).
  rewrite (polar_compute_windows samples Hne).
  rewrite (csv_compute_windows _ Hne'). cbv zeta.
  change SessionStressCsv.BASELINE_SECONDS with PolarRun.PRE_WINDOW_SECONDS.
  change SessionStressCsv.POST_WINDOW_SECONDS with PolarRun.POST_WINDOW_SECONDS.
  generalize (pre_window PolarRun.PRE_WINDOW_SECONDS (PolarRun.times_and_z samples)).
  generalize (post_window_from0 PolarRun.POST_WINDOW_SECONDS
                (PolarRun.times_and_z samples)).
  intros post pre.
  destruct pre as [| a pre'].
  - rewrite mean_div_empty. cbn [Py.bind]. split; discriminate.
  - rewrite (mean_div_ok (a :: pre')) by discriminate. cbn [Py.bind].
    destruct post as [| c post'].
    + rewrite mean_div_empty. cbn [Py.bind]. split; discriminate.
    + reflexivity.
Qed.

Lemma summary_within_data_witness :
  exists sm, PolarRun.compute_pre_post early_samples = Py.Ok sm /\
             1 <= pre_mean sm <= 3.
Proof.
  assert (Hall : all_within 1 3 (map PolarRun.s_z early_samples)).
  { unfold all_within, early_samples. cbn [map PolarRun.s_z].
    constructor; [lra |]. constructor; [lra |]. constructor. }
  destruct (polar_summarises early_samples) as (sm & Hsm & _).
  - rewrite early_pre. discriminate.
  - rewrite early_post_code. discriminate.
  - exists sm. split; [exact Hsm |].
    apply (summary_within_data early_samples 1 3 sm Hall Hsm).
Defined.

Lemma filter_keeps {A : Type} (f : A -> bool) (l : list A) (x : A) :
  In x l -> f x = true -> filter f l <> [].
Proof.
  intros Hin Hf Hnil.
  assert (Hx : In x (filter f l)) by (apply filter_In; split; assumption).
  rewrite Hnil in Hx. destruct Hx.
Qed.

Lemma last_in {A : Type} (l : list A) (a d : A) : In (last (a :: l) d) (a :: l).
Proof.
  revert a. induction l as [| b l IH]; intros a.
  - left. reflexivity.
  - right. exact (IH b).
Qed.

Lemma last_cons_default {A : Type} (l : list A) (a d : A) :
  last (a :: l) d = last l a.
Proof.
  revert a d. induction l as [| b l IH]; intros a d; [reflexivity |].
  change (last (b :: l) d = last (b :: l) a). rewrite (IH b d), (IH b a). reflexivity.
Qed.

Lemma last_map_cons {A B : Type} (g : A -> B) (l : list A) (a : A) (d : B) :
  last (map g (a :: l)) d = g (last l a).
Proof.
  cbn [map]. rewrite last_cons_default.
  revert a. induction l as [| b l IH]; intros a; [reflexivity |].
  cbn [map]. rewrite !last_cons_default. apply IH.
Qed.

(** X17 (when the session summary succeeds): if a session loop processed
    at least one turn, its first sample was taken within
    [PRE_WINDOW_SECONDS] of the start time and the clock reading of the
    last processed turn is not before the start time, then
    [compute_pre_post] on the logged samples returns a summary; both of
    its counts are at least 1 and its [t_last] is the time of the last
    processed turn. *)
Theorem session_summary_succeeds (us : list PolarRun.Turn)
    (u1 : PolarRun.Turn) (rest : list PolarRun.Turn) :
  processed us = u1 :: rest ->
  PolarRun.turn_clock u1 - start_time us <= PolarRun.PRE_WINDOW_SECONDS ->
  start_time us <= PolarRun.turn_clock (last rest u1) ->
  exists sm,
    PolarRun.compute_pre_post
      (PolarRun.samples (PolarRun.stream_loop PolarRun.session_start us)) = Py.Ok sm /\
    (1 <= n_pre sm)%nat /\ (1 <= n_post sm)%nat /\
    t_last sm = PolarRun.turn_clock (last rest u1) - start_time us.
Proof.
  intros Hproc Hfirst Hlast.
  set (ss := PolarRun.samples (PolarRun.stream_loop PolarRun.session_start us)).
  pose proof (session_times us) as Htz. fold ss in Htz. rewrite Hproc in Htz.
  set (g := fun u => (PolarRun.turn_clock u - start_time us, PolarRun.turn_z u)) in *.
  assert (Htl : fst (last (PolarRun.times_and_z ss) (0, 0))
                = PolarRun.turn_clock (last rest u1) - start_time us).
  { rewrite Htz, last_map_cons. reflexivity. }
  assert (Hpre : pre_window PolarRun.PRE_WINDOW_SECONDS (PolarRun.times_and_z ss) <> []).
  { unfold pre_window. intros Hnil. apply map_eq_nil in Hnil. revert Hnil.
    apply (filter_keeps _ _ (g u1)).
    - rewrite Htz. left. reflexivity.
    - apply leb_true. exact Hfirst. }
  assert (Hpost : post_window_from0 PolarRun.POST_WINDOW_SECONDS
                    (PolarRun.times_and_z ss) <> []).
  { unfold post_window_from0. cbv zeta. intros Hnil. apply map_eq_nil in Hnil.
    revert Hnil. apply (filter_keeps _ _ (g (last rest u1))).
    - rewrite Htz. rewrite <- (last_map_cons g rest u1 (0, 0)).
      cbn [map]. apply last_in.
    - apply geb_true. rewrite Htl. cbn [fst g].
      unfold Rmax, PolarRun.POST_WINDOW_SECONDS.
      destruct (Rle_dec 0 _); lra. }
  destruct (polar_summarises ss Hpre Hpost)
    as (sm & Hsm & _ & _ & _ & Ht & Hnpre & Hnpost).
  exists sm. split; [exact Hsm |].
  split; [| split].
  - rewrite Hnpre. destruct (pre_window _ _); [contradiction | cbn; lia].
  - rewrite Hnpost. destruct (post_window_from0 _ _); [contradiction | cbn; lia].
  - rewrite Ht. exact Htl.
Qed.

Lemma session_summary_succeeds_witness :
  let us := [PolarRun.mkTurn 0.3 100 false 100; PolarRun.mkTurn (-0.2) 0 false 230] in
  exists sm,
    PolarRun.compute_pre_post
      (PolarRun.samples (PolarRun.stream_loop PolarRun.session_start us)) = Py.Ok sm /\
    (1 <= n_pre sm)%nat.
Proof.
  intros us.
  destruct (session_summary_succeeds us
              (PolarRun.mkTurn 0.3 100 false 100)
              [PolarRun.mkTurn (-0.2) 0 false 230]) as (sm & Hsm & Hpre & _).
  - reflexivity.
  - unfold PolarRun.PRE_WINDOW_SECONDS; cbn. lra.
  - cbn. lra.
  - exists sm. split; assumption.
Defined.

End SummaryMore.

(** ** More about the HRV stream *)

Module HrvMore.
Import Hrv HrvSpec SessionSpec PyProofs RmssdProofs FrameProofs HrvProofs.

Lemma deliver_invariant (cfg : Config) (P : State -> Prop) :
  (forall st data now st',
      P st -> hrm_notification_handler cfg st data now = Py.Ok st' -> P st') ->
  forall evs st st', P st -> deliver cfg st evs = Py.Ok st' -> P st'.
Proof.
  intros Hstep evs. induction evs as [| [data now] evs IH]; intros st st' HP Hrun;
    cbn in Hrun.
  - injection Hrun as <-. exact HP.
  - destruct (hrm_notification_handler cfg st data now) as [st1 | e] eqn:Hs;
      cbn in Hrun; [| discriminate].
    eapply IH; [eapply Hstep; eassumption | exact Hrun].
Qed.

Lemma reachable_invariant (cfg : Config) (P : State -> Prop) :
  P init ->
  (forall st data now st',
      P st -> hrm_notification_handler cfg st data now = Py.Ok st' -> P st') ->
  forall st, reachable cfg st -> P st.
Proof.
  intros H0 Hstep st [evs Hrun].
  eapply deliver_invariant; eassumption.
Qed.

(** The window after a notification: the old one, or the trimmed one. *)
Lemma handler_window (cfg : Config) (st st' : State) (data : list byte) (now : R) :
  hrm_notification_handler cfg st data now = Py.Ok st' ->
  rr_ms_window st' = rr_ms_window st \/
  rr_ms_window st' = keep_recent cfg (rr_ms_window st ++ intervals_ms data).
Proof.
  intros Hret.
  pose proof (handler_outcome cfg st data now) as Hout. rewrite Hret in Hout.
  inversion Hout; subst; cbn [rr_ms_window]; auto.
Qed.

Lemma keep_recent_suffix (cfg : Config) (w : list R) :
  exists older, w = older ++ keep_recent cfg w.
Proof.
  unfold keep_recent, Py.slice_from.
  destruct (rr_window_size cfg <? Z.of_nat (length w))%Z.
  - destruct (- rr_window_size cfg <? 0)%Z;
      eexists; symmetry; apply firstn_skipn.
  - exists []. reflexivity.
Qed.

Lemma keep_recent_length (cfg : Config) (w : list R) :
  (0 < rr_window_size cfg)%Z ->
  length (keep_recent cfg w) = Nat.min (length w) (Z.to_nat (rr_window_size cfg)).
Proof.
  intros Hpos. unfold keep_recent, Py.slice_from.
  destruct (Z.ltb_spec (rr_window_size cfg) (Z.of_nat (length w))) as [Hlong | Hshort].
  - destruct (Z.ltb_spec (- rr_window_size cfg) 0); [| lia].
    rewrite length_skipn. lia.
  - lia.
Qed.

(** X18 (the interval window is bounded): for a window size of at least
    1, trimming keeps exactly the most recent [min(len, size)] intervals,
    and on the stream the window never holds more than [rr_window_size]
    intervals.  With a window size of 0 the slice [w[-0:]] is the whole
    list, so nothing is ever dropped. *)
Theorem window_is_bounded (cfg : Config) :
  (forall w : list R,
     (0 < rr_window_size cfg)%Z ->
     length (keep_recent cfg w) = Nat.min (length w) (Z.to_nat (rr_window_size cfg)) /\
     exists older, w = older ++ keep_recent cfg w) /\
  (forall st : State,
     (0 < rr_window_size cfg)%Z -> reachable cfg st ->
     (Z.of_nat (length (rr_ms_window st)) <= rr_window_size cfg)%Z) /\
  (rr_window_size cfg = 0%Z -> forall w : list R, keep_recent cfg w = w).
Proof.
  split; [| split].
  - intros w Hpos. split; [apply keep_recent_length, Hpos | apply keep_recent_suffix].
  - intros st Hpos Hreach. revert st Hreach.
    apply reachable_invariant.
    + cbn. lia.
    + intros st data now st' IH Hret.
      destruct (handler_window cfg st st' data now Hret) as [-> | ->]; [exact IH |].
      rewrite keep_recent_length by exact Hpos. lia.
  - intros Hzero w. unfold keep_recent, Py.slice_from. rewrite Hzero.
    destruct (0 <? Z.of_nat (length w))%Z; reflexivity.
Qed.

Lemma window_is_bounded_witness :
  (0 < rr_window_size Scenario.cfg)%Z /\ reachable Scenario.cfg Scenario.undrained_state /\
  (Z.of_nat (length (rr_ms_window Scenario.undrained_state))
   <= rr_window_size Scenario.cfg)%Z.
Proof.
  assert (H : (0 < rr_window_size Scenario.cfg)%Z) by (cbn; lia).
  split; [exact H |]. split; [exact undrained_reachable |].
  apply (proj1 (proj2 (window_is_bounded Scenario.cfg)) _ H undrained_reachable).
Defined.

(** X19 (nothing is emitted during baseline): a notification that
    arrives while the baseline is still open leaves the queue as it was,
    the closing one included; so on the stream the queue is empty until
    the baseline has closed. *)
Theorem baseline_emits_nothing (cfg : Config) :
  (forall (st st' : State) (data : list byte) (now : R),
     baseline_done st = false ->
     hrm_notification_handler cfg st data now = Py.Ok st' ->
     queue st' = queue st) /\
  (forall st : State,
     reachable cfg st -> baseline_done st = false -> Py.items (queue st) = []).
Proof.
  assert (Hstep : forall (st st' : State) (data : list byte) (now : R),
     baseline_done st = false ->
     hrm_notification_handler cfg st data now = Py.Ok st' ->
     queue st' = queue st).
  { intros st st' data now Hopen Hret.
    pose proof (handler_outcome cfg st data now) as Hout. rewrite Hret in Hout.
    inversion Hout; subst; cbn [queue]; congruence. }
  split; [exact Hstep |].
  intros st Hreach. revert st Hreach.
  apply (reachable_invariant cfg
           (fun st => baseline_done st = false -> Py.items (queue st) = [])).
  - reflexivity.
  - intros st data now st' IH Hret Hopen'.
    destruct (baseline_done st) eqn:Hd.
    + destruct (handler_frozen cfg st st' data now Hd Hret) as (Hd' & _). congruence.
    + rewrite (Hstep st st' data now Hd Hret). apply IH. reflexivity.
Qed.

Lemma baseline_emits_nothing_witness :
  baseline_done init = false /\
  forall st', hrm_notification_handler Scenario.cfg init Scenario.frame3 1 = Py.Ok st' ->
              queue st' = queue init.
Proof.
  assert (H : baseline_done init = false) by reflexivity.
  split; [exact H |].
  intros st'. apply (proj1 (baseline_emits_nothing Scenario.cfg) init st' _ _ H).
Defined.

(** X25 (one sample per notification): on the stream, a notification
    adds exactly one value when its frame is accepted and the window then
    holds at least 3 intervals, however many intervals the frame carries:
    while the baseline is open the RMSSD sample is appended to the
    baseline samples and the queue is left as it was; once the baseline
    is closed its z-score is appended to the queue and the baseline
    samples are left as they were.  Any other notification adds nothing
    to either. *)
Theorem one_sample_per_notification (cfg : Config) (st st' : State)
    (data : list byte) (now : R) :
  reachable cfg st ->
  hrm_notification_handler cfg st data now = Py.Ok st' ->
  let sampled := accepted data /\ (3 <= length (new_window cfg st data))%nat in
  (sampled -> baseline_done st = false ->
     baseline_rmssds st' = baseline_rmssds st ++ [new_sample cfg st data] /\
     queue st' = queue st) /\
  (sampled -> baseline_done st = true ->
     baseline_rmssds st' = baseline_rmssds st /\
     Py.items (queue st') = Py.items (queue st) ++ [new_z cfg st data]) /\
  (~ sampled ->
     baseline_rmssds st' = baseline_rmssds st /\ queue st' = queue st).
Proof.
  intros Hreach Hret sampled. subst sampled.
  destruct (reachable_inv cfg st Hreach) as (Hmax & _ & _).
  pose proof (handler_outcome cfg st data now) as Hout. rewrite Hret in Hout.
  assert (Hnotfull : Py.full (queue st) = false).
  { unfold Py.full. rewrite Hmax. reflexivity. }
  inversion Hout; subst; cbn [baseline_rmssds queue Py.items];
    (split; [| split]); intros; try (split; reflexivity);
    try congruence; try tauto; try (exfalso; lia).
Qed.

Lemma one_sample_per_notification_witness :
  reachable Scenario.cfg Scenario.undrained_state /\
  hrm_notification_handler Scenario.cfg Scenario.undrained_state Scenario.frame1 63
  = Py.Ok Scenario.overfull_state /\
  baseline_rmssds Scenario.overfull_state = baseline_rmssds Scenario.undrained_state /\
  Py.items (queue Scenario.overfull_state) =
    Py.items (queue Scenario.undrained_state)
    ++ [new_z Scenario.cfg Scenario.undrained_state Scenario.frame1].
Proof.
  split; [exact undrained_reachable |]. split; [exact scenario_step5 |].
  apply (proj1 (proj2 (one_sample_per_notification Scenario.cfg _ _ _ _
                         undrained_reachable scenario_step5))).
  - split; [exact accepted_frame1 |].
    rewrite (new_window_constant _ 6), repeat_length by (reflexivity || lia). lia.
  - reflexivity.
Defined.

End HrvMore.

(** ** More about RMSSD *)

Module RmssdMore.
Import Hrv HrvSpec SessionSpec PyProofs RmssdProofs.

Lemma squares_sum_zero (ds : list R) :
  fold_right Rplus 0 (map (fun d => d * d) ds) = 0 <-> Forall (eq 0) ds.
Proof.
  induction ds as [| d ds IH]; cbn [map fold_right].
  - split; [constructor | reflexivity].
  - pose proof (sum_squares_nonneg (fun d => d) ds) as Hrest. cbv beta in Hrest.
    pose proof (Rle_0_sqr d) as Hd. unfold Rsqr in Hd.
    split.
    + intros Hsum.
      assert (Hd0 : d * d = 0) by lra.
      assert (Hr0 : fold_right Rplus 0 (map (fun d => d * d) ds) = 0) by lra.
      constructor; [| apply IH; exact Hr0].
      apply Rmult_integral in Hd0. destruct Hd0; lra.
    + intros Hall. inversion Hall as [| ? ? Hd0 Hds]; subst.
      rewrite (proj2 IH Hds). lra.
Qed.

Lemma diffs_zero_constant (w : list R) :
  Forall (eq 0) (successive_diffs w) <-> constant w.
Proof.
  unfold constant. induction w as [| x [| y w'] IH].
  - split; [intros _ a b [] | constructor].
  - split; [| constructor].
    intros _ a b [<- | []] [<- | []]. reflexivity.
  - change (successive_diffs (x :: y :: w')) with ((y - x) :: successive_diffs (y :: w')).
    split.
    + intros Hall. inversion Hall as [| ? ? Hxy Hrest]; subst.
      pose proof (proj1 IH Hrest) as Hc.
      assert (Hy : forall a, In a (x :: y :: w') -> a = y).
      { intros a [<- | Ha]; [lra |]. apply Hc; [exact Ha | left; reflexivity]. }
      intros a b Ha Hb. rewrite (Hy a Ha), (Hy b Hb). reflexivity.
    + intros Hc. constructor.
      * rewrite (Hc x y); [lra | left; reflexivity | right; left; reflexivity].
      * apply IH. intros a b Ha Hb. apply Hc; right; assumption.
Qed.

(** X20 (RMSSD is zero exactly on a constant window): with at least 3
    intervals [compute_rmssd] returns a value that is never negative, and
    that is 0 exactly when all intervals of the window are equal. *)
Theorem rmssd_zero_iff_constant (w : list R) :
  (3 <= length w)%nat ->
  exists r, compute_rmssd w = Py.Ok (Some r) /\ 0 <= r /\ (r = 0 <-> constant w).
Proof.
  intros Hlen. exists (rmssd w / 1000).
  split; [apply compute_rmssd_long, Hlen |].
  unfold rmssd, arith_mean. rewrite length_map.
  set (ds := successive_diffs w).
  assert (Hn : 0 < INR (length ds)).
  { subst ds. rewrite successive_diffs_length. apply lt_0_INR. lia. }
  pose proof (sum_squares_nonneg (fun d => d) ds) as Hsum. cbv beta in Hsum.
  set (S := fold_right Rplus 0 (map (fun d => d * d) ds)) in *.
  assert (Hq : 0 <= S / INR (length ds)).
  { apply Rmult_le_pos; [exact Hsum |]. left. apply Rinv_0_lt_compat. exact Hn. }
  pose proof (sqrt_pos (S / INR (length ds))) as Hs.
  split; [lra |].
  rewrite <- diffs_zero_constant. fold ds. rewrite <- squares_sum_zero. fold S.
  split.
  - intros Hr.
    assert (Hs0 : sqrt (S / INR (length ds)) = 0) by lra.
    apply sqrt_eq_0 in Hs0; [| exact Hq].
    apply (Rmult_eq_compat_r (INR (length ds))) in Hs0.
    replace (S / INR (length ds) * INR (length ds)) with S in Hs0 by (field; lra).
    lra.
  - intros ->. replace (0 / INR (length ds)) with 0 by (field; lra).
    rewrite sqrt_0. lra.
Qed.

Lemma rmssd_zero_iff_constant_witness :
  (3 <= length [812; 812; 812])%nat /\
  exists r, compute_rmssd [812; 812; 812] = Py.Ok (Some r) /\ 0 <= r.
Proof.
  assert (H : (3 <= length [812; 812; 812])%nat) by (cbn; lia).
  split; [exact H |].
  destruct (rmssd_zero_iff_constant [812; 812; 812] H) as (r & Hr & Hpos & _).
  exists r. split; assumption.
Defined.

Lemma successive_diffs_shift (c : R) (w : list R) :
  successive_diffs (map (fun x => x + c) w) = successive_diffs w.
Proof.
  induction w as [| x [| y w'] IH]; try reflexivity.
  change (map (fun x => x + c) (x :: y :: w'))
    with ((x + c) :: map (fun x => x + c) (y :: w')).
  change (map (fun x => x + c) (y :: w'))
    with ((y + c) :: map (fun x => x + c) w') in *.
  change (successive_diffs ((x + c) :: (y + c) :: map (fun x => x + c) w'))
    with ((y + c - (x + c)) :: successive_diffs ((y + c) :: map (fun x => x + c) w')).
  change (successive_diffs (x :: y :: w')) with ((y - x) :: successive_diffs (y :: w')).
  rewrite IH. f_equal. lra.
Qed.

(** X21 (RMSSD ignores the heart-rate level): adding the same amount to
    every interval of a window does not change what [compute_rmssd]
    returns. *)
Theorem rmssd_shift_invariant (c : R) (w : list R) :
  compute_rmssd (map (fun x => x + c) w) = compute_rmssd w.
Proof.
  destruct (Nat.lt_ge_cases (length w) 3) as [Hshort | Hlong].
  - rewrite !compute_rmssd_short by (rewrite ?length_map; exact Hshort). reflexivity.
  - rewrite !compute_rmssd_long by (rewrite ?length_map; exact Hlong).
    unfold rmssd. rewrite successive_diffs_shift. reflexivity.
Qed.

End RmssdMore.

(** ** Collecting the samples of session_stress_csv.py *)

Module CollectProofs.
Import Collect SummarySpec PyProofs SummaryProofs SummaryMore.





End CollectProofs.
